(** * Error chains with codes and stack traces (package [errors], errors.go)

    A shallow embedding of the Go package and the verification of its
    documented laws.

    Modelling choices.

    - A value of interface type [error] is the inductive type [error]:
      the nil interface, a nil pointer of one of the three node types of
      the package held in a (then non-nil) interface, a pointer to a node
      of one of these types, or a value of some other package ("foreign").
    - The operations of the package return pointers ([*MsgCodeErr],
      [*StackError], [*CauseMsgCodeError]).  A returned pointer is the
      [error] value it becomes when it is passed on as an [error]: the nil
      pointer of type [t] is [NilPtr t], which is not [Nil].
    - The fields [msg], [cause]/[error] and [stack] of a node are written
      once, by the constructor, and are never assigned afterwards, so they
      travel with the pointer.  The field [code] is assigned by [SetCode];
      it lives in the [store], keyed by the address of the node.  Two
      pointers are the same pointer when they carry the same address, and
      every copy of a pointer reads and writes the same [code] cell.
    - A call that panics in Go (a method call through the nil interface, a
      field read through a nil pointer) is [None], or [Panics] where the
      call follows a comma-ok type assertion, which can also fail
      ([NoMethod]). *)

From stdpp Require Import base option list strings gmap.
From Stdlib Require Import ZArith Lia Ascii.

Local Open Scope Z_scope.

(** ** Data model *)

(** A node address. *)
Definition loc := nat.

(** [type Frame]: one call site of a captured stack, a program counter. *)
Definition Frame := N.

(** [type stack]: the frames recorded by [callers()], innermost first. *)
Definition stack := list Frame.

(** The three pointer types of the package. *)
Inductive ptype : Type := TMsgCodeErr | TStackError | TCauseMsgCodeError.

Global Instance ptype_eq_dec : EqDecision ptype.
Proof. solve_decision. Defined.

(** Values of the interface type [error]. *)
Inductive error : Type :=
| Nil
    (* the nil interface value *)
| NilPtr (t : ptype)
    (* a nil pointer of type t: nil as a pointer, non-nil as an error *)
| MsgCodeErr (l : loc) (msg : string) (stk : stack)
    (* *MsgCodeErr{code (in the store at l), msg, *stack} *)
| StackError (l : loc) (err : error) (stk : stack)
    (* *StackError{error, *stack} *)
| CauseMsgCodeError (l : loc) (cause : error) (msg : string)
    (* *CauseMsgCodeError{cause, code (in the store at l), msg} *)
| Foreign (msg : string) (code : option Z)
    (* an error of another package: its Error() text and, when it has a
       Code() int method, what that method returns *)
| ForeignCauser (msg : string) (code : option Z) (cause : error).
    (* a foreign error that also has a Cause() error method *)

Global Instance error_eq_dec : EqDecision error.
Proof. solve_decision. Defined.

(** [p == nil] for a pointer [p] returned by an operation of the package. *)
Definition nil_pointer (p : error) : bool :=
  match p with
  | NilPtr _ => true
  | _ => false
  end.

(** The outcome of [x, ok := e.(interface{ M(...) ... })] followed, when
    [ok], by the call [x.M(...)]. *)
Inductive call (A : Type) : Type :=
| NoMethod
    (* the assertion fails: the value has no such method *)
| Panics
    (* the value has the method and the call panics *)
| Returns (a : A).
    (* the value has the method and the call returns a *)

Arguments NoMethod {A}.
Arguments Panics {A}.
Arguments Returns {A} a.

(** The mutable part of memory: the [code] field of every allocated
    [MsgCodeErr] and [CauseMsgCodeError], and the next free address. *)
Record store := Store { codes : gmap loc Z; next : loc }.

Definition empty_store : store := Store ∅ 0%nat.

(** Reading the field [code] of the node at [l]. *)
Definition load (s : store) (l : loc) : Z := default 0 (codes s !! l).

(** [p.code = code] for the node at [l]. *)
Definition assign (l : loc) (code : Z) (s : store) : store :=
  Store (<[l := code]> (codes s)) (next s).

(** [&T{...}] for a struct with a [code] field initialised to [code]. *)
Definition alloc_coded (code : Z) (s : store) : loc * store :=
  (next s, Store (<[next s := code]> (codes s)) (S (next s))).

(** [&StackError{...}]: a fresh address, no [code] field. *)
Definition alloc_plain (s : store) : loc * store :=
  (next s, Store (codes s) (S (next s))).

(** ** Methods *)

(** [Error() string].  [MsgCodeErr.Error] returns [f.msg];
    [CauseMsgCodeError.Error] returns [w.msg + ": " + w.cause.Error()];
    [StackError] embeds [error], so its [Error] is the promoted method of
    the embedded value.  [None]: the call panics (nil interface, or a
    field read through a nil pointer). *)
Fixpoint Error (e : error) : option string :=
  match e with
  | Nil => None
  | NilPtr _ => None
  | MsgCodeErr _ msg _ => Some msg
  | StackError _ err _ => Error err
  | CauseMsgCodeError _ cause msg =>
      match Error cause with
      | Some s => Some (msg +:+ ": " +:+ s)
      | None => None
      end
  | Foreign msg _ => Some msg
  | ForeignCauser msg _ _ => Some msg
  end.

(** [x, ok := e.(interface{ Cause() error })] followed by [x.Cause()].
    [StackError.Cause] returns [w.error], [CauseMsgCodeError.Cause]
    returns [w.cause]; both read a field of the receiver, so they panic on
    a nil receiver.  [MsgCodeErr] has no such method. *)
Definition method_Cause (e : error) : call error :=
  match e with
  | NilPtr TStackError => Panics
  | NilPtr TCauseMsgCodeError => Panics
  | StackError _ err _ => Returns err
  | CauseMsgCodeError _ cause _ => Returns cause
  | ForeignCauser _ _ cause => Returns cause
  | _ => NoMethod
  end.

(** [x, ok := e.(interface{ Unwrap() error })] followed by [x.Unwrap()].
    [StackError.Unwrap] returns [w.error], [CauseMsgCodeError.Unwrap]
    returns [w.cause].  Nothing is assumed of foreign values. *)
Definition method_Unwrap (e : error) : call error :=
  match e with
  | NilPtr TStackError => Panics
  | NilPtr TCauseMsgCodeError => Panics
  | StackError _ err _ => Returns err
  | CauseMsgCodeError _ cause _ => Returns cause
  | _ => NoMethod
  end.

(** [x, ok := e.(interface{ Code() int })] followed by [x.Code()].
    [MsgCodeErr.Code] and [CauseMsgCodeError.Code] return the field;
    [StackError.Code] asserts the same interface on [w.error], returns
    what its [Code()] returns and returns 0 when the assertion fails.  All
    three read a field of the receiver first, so they panic on a nil
    receiver. *)
Fixpoint Code (s : store) (e : error) : call Z :=
  match e with
  | Nil => NoMethod
  | NilPtr _ => Panics
  | MsgCodeErr l _ _ => Returns (load s l)
  | StackError _ err _ =>
      match Code s err with
      | Returns k => Returns k
      | NoMethod => Returns 0
      | Panics => Panics
      end
  | CauseMsgCodeError l _ _ => Returns (load s l)
  | Foreign _ code =>
      match code with Some k => Returns k | None => NoMethod end
  | ForeignCauser _ code _ =>
      match code with Some k => Returns k | None => NoMethod end
  end.

(** [x, ok := e.(interface{ SetCode(int) error })] followed by
    [x.SetCode(code)]: the returned error and the store afterwards.
    [MsgCodeErr.SetCode] and [CauseMsgCodeError.SetCode] assign the field
    and return the receiver; [StackError.SetCode] calls [SetCode] on
    [w.error] when it has one, drops what that returns, and returns the
    receiver.  Foreign values are taken to have no [SetCode] method. *)
Fixpoint SetCode (code : Z) (e : error) (s : store) : call (error * store) :=
  match e with
  | Nil => NoMethod
  | NilPtr _ => Panics
  | MsgCodeErr l _ _ => Returns (e, assign l code s)
  | StackError _ err _ =>
      match SetCode code err s with
      | Returns (_, s') => Returns (e, s')
      | NoMethod => Returns (e, s)
      | Panics => Panics
      end
  | CauseMsgCodeError l _ _ => Returns (e, assign l code s)
  | Foreign _ _ => NoMethod
  | ForeignCauser _ _ _ => NoMethod
  end.

(** [func Cause(err error) error]: the loop
    [for err != nil { cause, ok := err.(causer); if !ok { break };
    err = cause.Cause() }; return err], by recursion on the chain.
    [None]: a [Cause()] call of the loop panics. *)
Fixpoint Cause (err : error) : option error :=
  match err with
  | Nil => Some Nil
  | NilPtr TMsgCodeErr => Some err
  | NilPtr TStackError => None
  | NilPtr TCauseMsgCodeError => None
  | StackError _ e _ => Cause e
  | CauseMsgCodeError _ e _ => Cause e
  | ForeignCauser _ _ e => Cause e
  | MsgCodeErr _ _ _ => Some err
  | Foreign _ _ => Some err
  end.

(** The same loop, iteration by iteration: [fuel] bounds the number of
    times the body may run to its end.  [None]: the bound was reached
    before the loop was left; [Some None]: a [Cause()] call panicked;
    [Some (Some r)]: the loop was left and [r] returned. *)
Fixpoint Cause_loop (fuel : nat) (err : error) {struct fuel}
    : option (option error) :=
  match err with
  | Nil => Some (Some err)
  | _ =>
      match method_Cause err with
      | NoMethod => Some (Some err)
      | Panics => Some None
      | Returns cause =>
          match fuel with
          | O => None
          | S fuel' => Cause_loop fuel' cause
          end
      end
  end.

(** The number of nodes of the chain whose [Cause] method returns,
    counted from the outside down to the first value that has no such
    method or is a nil pointer. *)
Fixpoint depth (e : error) : nat :=
  match e with
  | StackError _ err _ => S (depth err)
  | CauseMsgCodeError _ cause _ => S (depth cause)
  | ForeignCauser _ _ cause => S (depth cause)
  | _ => O
  end.

(** ** Formatted output

    A [fmt.State] is written to piece by piece; the text it receives is the
    concatenation of the pieces.  Each piece remembers which statement of
    the source wrote it. *)
Inductive chunk : Type :=
| Message (m : string)
    (* io.WriteString(s, x.msg); the Error() text fmt prints for a value
       that has no Format method *)
| Literal (t : string)
    (* text that fmt itself supplies: the "\n" of "%+v\n", "<nil>" *)
| Joined (t : string)
    (* io.WriteString(s, w.Error()) *)
| Quoted (t : string)
    (* fmt.Fprintf(s, "%q", t) *)
| FrameLine (f : Frame).
    (* fmt.Fprintf(st, "\n%+v", f) for one frame of a stack *)

(** Modelled from the spec: [stack.Format], which is declared outside
    errors.go.  Under the verb 'v' with the flag '+' it renders the stack
    "frame-by-frame in detailed mode", in the order the frames are stored.
    errors.go calls it under that verb and flag only. *)
Definition stack_Format (stk : stack) : list chunk := map FrameLine stk.

(** [fmt.Fprintf(s, "%+v", x)] for an operand [x] of type [error], given
    what the [Format] method of a node of this package writes under 'v'
    with '+'.  A nil operand prints as "<nil>"; so does a nil pointer,
    whose [Format] method panics before it writes anything: fmt recovers
    from the panic of a nil receiver and writes "<nil>".  A value with a
    [Format] method is handed over to it; any other error prints its
    [Error()] text.  Foreign values are taken to have no [Format]
    method. *)
Definition Fprintf_plus_v (Format_plus_v : error -> option (list chunk))
    (x : error) : option (list chunk) :=
  match x with
  | Nil => Some [Literal "<nil>"]
  | NilPtr _ => Some [Literal "<nil>"]
  | Foreign msg _ => Some [Message msg]
  | ForeignCauser msg _ _ => Some [Message msg]
  | _ => Format_plus_v x
  end.

(** [Format(s fmt.State, verb rune)] of the three node types, called as a
    method: what is written to [s]; [plus] is [s.Flag('+')].  [None]: the
    call panics.  A verb other than 'v', 's', 'q' writes nothing, and then
    reads no field of the receiver. *)
Fixpoint Format (e : error) (plus : bool) (verb : ascii) : option (list chunk) :=
  match e with
  | Nil => None
  | Foreign _ _ => None
  | ForeignCauser _ _ _ => None
  | NilPtr _ =>
      if Ascii.eqb verb "v" || Ascii.eqb verb "s" || Ascii.eqb verb "q"
      then None
      else Some []
  | MsgCodeErr _ msg stk =>
      if Ascii.eqb verb "v" then
        if plus then Some (Message msg :: stack_Format stk)
        else Some [Message msg]
      else if Ascii.eqb verb "s" then Some [Message msg]
      else if Ascii.eqb verb "q" then Some [Quoted msg]
      else Some []
  | StackError _ err stk =>
      if Ascii.eqb verb "v" then
        if plus then
          match Fprintf_plus_v (fun x => Format x true "v"%char) err with
          | Some out => Some (out ++ stack_Format stk)
          | None => None
          end
        else
          match Error e with Some t => Some [Joined t] | None => None end
      else if Ascii.eqb verb "s" then
        match Error e with Some t => Some [Joined t] | None => None end
      else if Ascii.eqb verb "q" then
        match Error e with Some t => Some [Quoted t] | None => None end
      else Some []
  | CauseMsgCodeError _ cause msg =>
      if Ascii.eqb verb "v" then
        if plus then
          match Fprintf_plus_v (fun x => Format x true "v"%char) cause with
          | Some out => Some (out ++ [Literal (String "010" EmptyString); Message msg])
          | None => None
          end
        else
          match Error e with Some t => Some [Joined t] | None => None end
      else if Ascii.eqb verb "s" || Ascii.eqb verb "q" then
        match Error e with Some t => Some [Joined t] | None => None end
      else Some []
  end.

(** The call [fmt.Fprintf(s, "%+v", e)] as client code writes it. *)
Definition extended (e : error) : option (list chunk) :=
  Fprintf_plus_v (fun x => Format x true "v"%char) e.

(** ** The chain seen from outside *)

(** The messages the nodes of a chain carry, outermost first; a foreign
    value contributes its [Error()] text and ends the chain. *)
Fixpoint messages (e : error) : list string :=
  match e with
  | Nil => []
  | NilPtr _ => []
  | MsgCodeErr _ msg _ => [msg]
  | StackError _ err _ => messages err
  | CauseMsgCodeError _ cause msg => msg :: messages cause
  | Foreign msg _ => [msg]
  | ForeignCauser msg _ _ => [msg]
  end.

(** The stack snapshots the nodes of a chain carry, outermost first. *)
Fixpoint stacks (e : error) : list stack :=
  match e with
  | Nil => []
  | NilPtr _ => []
  | MsgCodeErr _ _ stk => [stk]
  | StackError _ err stk => stk :: stacks err
  | CauseMsgCodeError _ cause _ => stacks cause
  | Foreign _ _ => []
  | ForeignCauser _ _ _ => []
  end.

(** The messages among the pieces written, in the order written. *)
Definition written_messages (out : list chunk) : list string :=
  omap (fun c => match c with Message m => Some m | _ => None end) out.

(** The frames among the pieces written, in the order written. *)
Definition written_frames (out : list chunk) : list Frame :=
  omap (fun c => match c with FrameLine f => Some f | _ => None end) out.

(** [e] is a non-nil pointer to one of the three node types of this
    package. *)
Definition package_node (e : error) : bool :=
  match e with
  | MsgCodeErr _ _ _ | StackError _ _ _ | CauseMsgCodeError _ _ _ => true
  | _ => false
  end.


(** Every address of the chain is below [n]. *)
Fixpoint below (n : loc) (e : error) : Prop :=
  match e with
  | Nil => True
  | NilPtr _ => True
  | MsgCodeErr l _ _ => (l < n)%nat
  | StackError l err _ => (l < n)%nat /\ below n err
  | CauseMsgCodeError l cause _ => (l < n)%nat /\ below n cause
  | Foreign _ _ => True
  | ForeignCauser _ _ cause => below n cause
  end.

(** Every address of the chain was handed out by the allocator of [s]. *)
Definition allocated (s : store) (e : error) : Prop := below (next s) e.

(** The node whose [code] field the [Code] and [SetCode] methods of [e]
    end up at: [e] itself when it has the field, the cell of its cause for
    a [StackError], none when the delegation ends at a value without one. *)
Fixpoint code_cell (e : error) : option loc :=
  match e with
  | MsgCodeErr l _ _ => Some l
  | CauseMsgCodeError l _ _ => Some l
  | StackError _ err _ => code_cell err
  | _ => None
  end.

(** The extended rendering of [e] shows the messages of the chain from the
    outermost to the innermost. *)
Definition renders_outer_to_inner (e : error) : Prop :=
  exists out : list chunk,
    extended e = Some out /\ written_messages out = messages e.

(** No value of the chain is a foreign error with a [Cause] method: the
    chain is made of nodes of this package and ends at nil, at a nil
    pointer, at a [MsgCodeErr] or at a foreign error that [Cause] cannot
    look into. *)
Fixpoint no_foreign_causer (e : error) : bool :=
  match e with
  | StackError _ err _ => no_foreign_causer err
  | CauseMsgCodeError _ cause _ => no_foreign_causer cause
  | ForeignCauser _ _ _ => false
  | _ => true
  end.

(** One step of the loop of [Cause]: from a value whose [Cause] method
    returns to what the method returns. *)
Definition cause_step (e e' : error) : Prop := method_Cause e = Returns e'.

(** [descends n e r]: the loop of [Cause], started at [e], is at [r]
    after [n] calls of a [Cause] method. *)
Inductive descends : nat -> error -> error -> Prop :=
| descends_stop e : descends 0 e e
| descends_step n e e' r :
    e <> Nil -> cause_step e e' -> descends n e' r -> descends (S n) e r.

(** The loop of [Cause] is left at [r]: [r] is nil or has no [Cause]
    method. *)
Definition loop_exit (r : error) : Prop := r = Nil \/ method_Cause r = NoMethod.

(** An operation returned, and what it returned is not a nil pointer. *)
Definition returns_non_nil (r : option (error * store)) : Prop :=
  exists (w : error) (s' : store), r = Some (w, s') /\ nil_pointer w = false.

(** Modelled from the spec: the value of the constant [ErrCodeNotDefined],
    which errors.go uses and does not declare.  The spec gives the
    sentinel as 0 ("yielding 0/sentinel", "sentinel code 0/undefined"). *)
Definition ErrCodeNotDefined_of_spec : Z := 0.

(** ** Constructors and annotation operations *)

Section Package.

(** [ErrCodeNotDefined]: the constant is used by errors.go and declared
    elsewhere in the package; every value of it is covered. *)
Variable ErrCodeNotDefined : Z.

(** [fmt.Sprintf(format, args...)], of the standard library. *)
Variable arg : Type.
Variable Sprintf : string -> list arg -> string.

(** What fmt writes for a string under "%q" and for a [Frame] under "%+v"
    (the frame formatter is declared outside errors.go). *)
Variable Quote : string -> string.
Variable Frame_plus_v : Frame -> string.

(** The text of one piece, and of all the pieces written. *)
Definition chunk_text (c : chunk) : string :=
  match c with
  | Message m => m
  | Literal t => t
  | Joined t => t
  | Quoted t => Quote t
  | FrameLine f => String "010" EmptyString +:+ Frame_plus_v f
  end.

Definition text (out : list chunk) : string :=
  foldr (fun c acc => chunk_text c +:+ acc) EmptyString out.

(** [errCode := ErrCodeNotDefined;
     if cErr, ok := err.(interface{ Code() int }); ok { errCode = cErr.Code() }]
    [None]: the call [cErr.Code()] panics. *)
Definition errCode_of (s : store) (err : error) : option Z :=
  match Code s err with
  | Returns k => Some k
  | NoMethod => Some ErrCodeNotDefined
  | Panics => None
  end.

(** In each constructor below, [callers] is what the call [callers()]
    returns at that call site.  The operations that read the code of
    their argument return [None] when that call panics. *)

(** [func New(message string) *MsgCodeErr] *)
Definition New (callers : stack) (message : string) (s : store) : error * store :=
  let '(l, s') := alloc_coded ErrCodeNotDefined s in
  (MsgCodeErr l message callers, s').

(** [func Errorf(format string, args ...interface{}) *MsgCodeErr]: the
    composite literal names [msg] and [stack] only, so [code] holds the
    zero value of [int]. *)
Definition Errorf (callers : stack) (format : string) (args : list arg)
    (s : store) : error * store :=
  let '(l, s') := alloc_coded 0 s in
  (MsgCodeErr l (Sprintf format args) callers, s').

(** [func WithStack(err error) *StackError] *)
Definition WithStack (callers : stack) (err : error) (s : store) : error * store :=
  match err with
  | Nil => (NilPtr TStackError, s)
  | _ =>
      let '(l, s') := alloc_plain s in
      (StackError l err callers, s')
  end.

(** [func Wrap(err error, message string) *StackError] *)
Definition Wrap (callers : stack) (err : error) (message : string)
    (s : store) : option (error * store) :=
  match err with
  | Nil => Some (NilPtr TStackError, s)
  | _ =>
      match errCode_of s err with
      | None => None
      | Some errCode =>
          let '(l, s1) := alloc_coded errCode s in
          let err' := CauseMsgCodeError l err message in
          let '(l', s2) := alloc_plain s1 in
          Some (StackError l' err' callers, s2)
      end
  end.

(** [func Wrapf(err error, format string, args ...interface{}) *StackError] *)
Definition Wrapf (callers : stack) (err : error) (format : string)
    (args : list arg) (s : store) : option (error * store) :=
  match err with
  | Nil => Some (NilPtr TStackError, s)
  | _ =>
      match errCode_of s err with
      | None => None
      | Some errCode =>
          let '(l, s1) := alloc_coded errCode s in
          let err' := CauseMsgCodeError l err (Sprintf format args) in
          let '(l', s2) := alloc_plain s1 in
          Some (StackError l' err' callers, s2)
      end
  end.

(** [func WithMessage(err error, message string) *CauseMsgCodeError] *)
Definition WithMessage (err : error) (message : string) (s : store)
    : option (error * store) :=
  match err with
  | Nil => Some (NilPtr TCauseMsgCodeError, s)
  | _ =>
      match errCode_of s err with
      | None => None
      | Some errCode =>
          let '(l, s') := alloc_coded errCode s in
          Some (CauseMsgCodeError l err message, s')
      end
  end.

(** [func WithMessagef(err error, format string, args ...interface{}) *CauseMsgCodeError] *)
Definition WithMessagef (err : error) (format : string) (args : list arg)
    (s : store) : option (error * store) :=
  match err with
  | Nil => Some (NilPtr TCauseMsgCodeError, s)
  | _ =>
      match errCode_of s err with
      | None => None
      | Some errCode =>
          let '(l, s') := alloc_coded errCode s in
          Some (CauseMsgCodeError l err (Sprintf format args), s')
      end
  end.

(** [WithStack(WithMessage(err, message))]: the pointer [WithMessage]
    returns is passed on as an [error]. *)
Definition WithStack_of_WithMessage (callers : stack) (err : error)
    (message : string) (s : store) : option (error * store) :=
  match WithMessage err message s with
  | Some (mid, s1) => Some (WithStack callers mid s1)
  | None => None
  end.

(** Client code that annotates an error on its way up the call stack:
    [err = Wrap(err, m)] once for each entry of [layers], first entry
    first; every entry gives the message and what [callers()] returns at
    that call of [Wrap]. *)
Fixpoint Wrap_each (layers : list (stack * string)) (err : error) (s : store)
    : option (error * store) :=
  match layers with
  | [] => Some (err, s)
  | (callers, m) :: rest =>
      match Wrap callers err m s with
      | Some (err', s') => Wrap_each rest err' s'
      | None => None
      end
  end.

(** [Cause(Wrap(Wrap(e, a), b)) == Cause(e)]: both sides are evaluated
    and are the same value. *)
Definition wrap_twice_keeps_root (c1 c2 : stack) (e : error) (a b : string)
    (s : store) : Prop :=
  exists (w1 w2 r : error) (s1 s2 : store),
    Wrap c1 e a s = Some (w1, s1)
    /\ Wrap c2 w1 b s1 = Some (w2, s2)
    /\ Cause w2 = Some r /\ Cause e = Some r.

(** [Wrap(e, m)] is a [StackError] around a [CauseMsgCodeError] that
    carries [m] around [e]. *)
Definition builds_two_levels (callers : stack) (e : error) (m : string)
    (s : store) : Prop :=
  exists (l l' : loc) (s' : store),
    Wrap callers e m s
    = Some (StackError l' (CauseMsgCodeError l e m) callers, s').

(** Closes [allocated] goals about the result of an operation applied to
    [e], from [Ha : allocated s e] and the monotonicity lemma [mono] of
    [below]. *)
Ltac solve_allocated e Ha mono :=
  unfold allocated in *; destruct e; simpl in *; try done;
  repeat split; try lia; try (destruct Ha; lia);
  try (eapply mono; [| exact Ha]; simpl; lia);
  try (destruct Ha as [_ Ha]; eapply mono; [| exact Ha]; simpl; lia).

(** ** The store *)

Lemma load_assign_eq l code s : load (assign l code s) l = code.
Proof. unfold load, assign; simpl. by rewrite lookup_insert_eq. Qed.

Lemma load_assign_ne l l' code s : l <> l' -> load (assign l code s) l' = load s l'.
Proof. intros Hne. unfold load, assign; simpl. by rewrite lookup_insert_ne. Qed.

Lemma load_alloc_coded_eq code s :
  load (alloc_coded code s).2 (alloc_coded code s).1 = code.
Proof. unfold load, alloc_coded; simpl. by rewrite lookup_insert_eq. Qed.

Lemma load_alloc_coded_old code s l :
  (l < next s)%nat -> load (alloc_coded code s).2 l = load s l.
Proof.
  intros Hl. unfold load, alloc_coded; simpl.
  rewrite lookup_insert_ne; [done | lia].
Qed.

(** [Code] reads the store only at the addresses of the chain. *)
Lemma Code_agree n s s' e :
  below n e ->
  (forall l, (l < n)%nat -> load s' l = load s l) ->
  Code s' e = Code s e.
Proof.
  intros Ha Hs. induction e as [| t | l msg stk | l err IH stk | l cause IH msg
                                | msg code | msg code cause IH]; simpl in *.
  - done.
  - done.
  - by rewrite Hs.
  - destruct Ha as [_ Ha]. by rewrite IH.
  - destruct Ha as [Hl _]. by rewrite Hs.
  - done.
  - done.
Qed.

Lemma below_mono n n' e : (n <= n')%nat -> below n e -> below n' e.
Proof.
  intros Hle. induction e; simpl; intros Ha; try done; try lia;
    try (destruct Ha; split; [lia | auto]); auto.
Qed.

Lemma allocated_mono s s' e :
  (next s <= next s')%nat -> allocated s e -> allocated s' e.
Proof. apply below_mono. Qed.


(** [SetCode] never moves the allocator. *)
Lemma SetCode_next code e s r s' :
  SetCode code e s = Returns (r, s') -> next s' = next s.
Proof.
  revert r s'. induction e as [| t | l msg stk | l err IH stk | l cause IH msg
                               | msg code' | msg code' cause IH];
    simpl; intros r s' H; try discriminate.
  - by inversion H.
  - destruct (SetCode code err s) as [| | [r0 s0]] eqn:E; try discriminate.
    + by inversion H.
    + inversion H; subst. eauto.
  - by inversion H.
Qed.

(** ** The loop of [Cause] *)

(** The loop, unrolled once. *)
Lemma Cause_unfold err :
  Cause err =
    match err with
    | Nil => Some Nil
    | _ => match method_Cause err with
           | Returns e => Cause e
           | NoMethod => Some err
           | Panics => None
           end
    end.
Proof. destruct err as [| [] | | | | |]; reflexivity. Qed.

Lemma Cause_descends e r : Cause e = Some r -> descends (depth e) e r.
Proof.
  induction e as [| t | l msg stk | l err IH stk | l cause IH msg
                  | msg code | msg code cause IH]; simpl; intros H.
  - inversion H. constructor.
  - destruct t; inversion H. constructor.
  - inversion H. constructor.
  - econstructor; [done | reflexivity | auto].
  - econstructor; [done | reflexivity | auto].
  - inversion H. constructor.
  - econstructor; [done | reflexivity | auto].
Qed.

Lemma Cause_loop_exit e r : Cause e = Some r -> loop_exit r.
Proof.
  unfold loop_exit.
  induction e as [| t | l msg stk | l err IH stk | l cause IH msg
                  | msg code | msg code cause IH]; simpl; intros H; auto;
    try (inversion H; subst; auto; fail).
  destruct t; inversion H; subst; auto.
Qed.

(** When the loop panics, it has reached a nil [*StackError] or a nil
    [*CauseMsgCodeError]. *)
Lemma Cause_panics e :
  Cause e = None ->
  exists t : ptype,
    descends (depth e) e (NilPtr t) /\ method_Cause (NilPtr t) = Panics.
Proof.
  induction e as [| t | l msg stk | l err IH stk | l cause IH msg
                  | msg code | msg code cause IH]; simpl; intros H;
    try discriminate.
  - destruct t; try discriminate; eexists; (split; [constructor | done]).
  - destruct (IH H) as (t & Hd & Hp). exists t.
    split; [econstructor; [done | reflexivity | done] | done].
  - destruct (IH H) as (t & Hd & Hp). exists t.
    split; [econstructor; [done | reflexivity | done] | done].
  - destruct (IH H) as (t & Hd & Hp). exists t.
    split; [econstructor; [done | reflexivity | done] | done].
Qed.

(** With fuel for every node of the chain the loop ends as [Cause] does. *)
Lemma Cause_loop_enough fuel err :
  (depth err <= fuel)%nat -> Cause_loop fuel err = Some (Cause err).
Proof.
  revert fuel.
  induction err as [| t | l msg stk | l err IH stk | l cause IH msg
                    | msg code | msg code cause IH]; intros fuel Hf;
    destruct fuel as [| fuel]; simpl in *; try done; try lia;
    try (by destruct t); apply IH; lia.
Qed.

(** With less fuel it has not ended. *)
Lemma Cause_loop_short fuel err :
  (fuel < depth err)%nat -> Cause_loop fuel err = None.
Proof.
  revert fuel.
  induction err as [| t | l msg stk | l err IH stk | l cause IH msg
                    | msg code | msg code cause IH]; intros fuel Hf;
    destruct fuel as [| fuel]; simpl in *; try done; try lia; apply IH; lia.
Qed.

Lemma descends_exit_unique n e r :
  descends n e r -> loop_exit r -> Cause e = Some r.
Proof.
  induction 1 as [e | n e e' r Hnil Hstep _ IH]; intros Hexit.
  - destruct Hexit as [-> | Hnone]; [done |].
    rewrite Cause_unfold, Hnone. by destruct e.
  - rewrite (Cause_unfold e). unfold cause_step in Hstep. rewrite Hstep.
    destruct e; try done; auto.
Qed.

(** ** What the operations build *)

Lemma errCode_of_Returns s e k : Code s e = Returns k -> errCode_of s e = Some k.
Proof. unfold errCode_of. by intros ->. Qed.

Lemma errCode_of_is_Some s e : Code s e <> Panics -> is_Some (errCode_of s e).
Proof. unfold errCode_of. destruct (Code s e); eauto. done. Qed.

Lemma errCode_of_None s e : errCode_of s e = None <-> Code s e = Panics.
Proof. unfold errCode_of. destruct (Code s e); split; intros; done. Qed.

(** What Wrap builds from a non-nil cause whose code it could read. *)
Lemma Wrap_returns callers e m s k :
  e <> Nil ->
  errCode_of s e = Some k ->
  Wrap callers e m s
  = Some (StackError (S (next s)) (CauseMsgCodeError (next s) e m) callers,
          Store (<[next s := k]> (codes s)) (S (S (next s)))).
Proof. intros He Hk. destruct e; try done; unfold Wrap; by rewrite Hk. Qed.

Lemma WithMessage_returns e m s k :
  e <> Nil ->
  errCode_of s e = Some k ->
  WithMessage e m s
  = Some (CauseMsgCodeError (next s) e m,
          Store (<[next s := k]> (codes s)) (S (next s))).
Proof. intros He Hk. destruct e; try done; unfold WithMessage; by rewrite Hk. Qed.

Lemma WithStack_returns callers e s :
  e <> Nil ->
  WithStack callers e s
  = (StackError (next s) e callers, Store (codes s) (S (next s))).
Proof. intros He. by destruct e. Qed.

(** The operations that read the code of their argument panic when that
    call panics. *)
Lemma read_code_panics callers e m s :
  e <> Nil ->
  errCode_of s e = None ->
  Wrap callers e m s = None /\ WithMessage e m s = None.
Proof.
  intros He Hk. destruct e; try done; unfold Wrap, WithMessage; by rewrite Hk.
Qed.

Lemma Wrapf_is_Wrap callers e format args s :
  Wrapf callers e format args s = Wrap callers e (Sprintf format args) s.
Proof. reflexivity. Qed.

Lemma WithMessagef_is_WithMessage e format args s :
  WithMessagef e format args s = WithMessage e (Sprintf format args) s.
Proof. reflexivity. Qed.

Lemma Wrap_inv callers e m s w s' :
  e <> Nil ->
  Wrap callers e m s = Some (w, s') ->
  exists k : Z,
    errCode_of s e = Some k
    /\ w = StackError (S (next s)) (CauseMsgCodeError (next s) e m) callers
    /\ s' = Store (<[next s := k]> (codes s)) (S (S (next s))).
Proof.
  intros He H. destruct (errCode_of s e) as [k |] eqn:Hk.
  - rewrite (Wrap_returns callers e m s k He Hk) in H. inversion H. eauto.
  - destruct (read_code_panics callers e m s He Hk) as [Hw _]. congruence.
Qed.

Lemma WithMessage_inv e m s w s' :
  e <> Nil ->
  WithMessage e m s = Some (w, s') ->
  exists k : Z,
    errCode_of s e = Some k
    /\ w = CauseMsgCodeError (next s) e m
    /\ s' = Store (<[next s := k]> (codes s)) (S (next s)).
Proof.
  intros He H. destruct (errCode_of s e) as [k |] eqn:Hk.
  - rewrite (WithMessage_returns e m s k He Hk) in H. inversion H. eauto.
  - destruct (read_code_panics [] e m s He Hk) as (_ & Hw).
    congruence.
Qed.


(** ** Laws of the annotation operations *)

(** C1, as the code has it. Absence propagation: each of Wrap, Wrapf,
    WithMessage, WithMessagef and WithStack, with any message, returns nil
    (a nil pointer of its result type) when the cause is nil, and
    allocates nothing.  WithStack returns a non-nil result for every
    non-nil cause.  Wrap, Wrapf, WithMessage and WithMessagef return a
    non-nil result for every non-nil cause whose Code() call, when the
    cause has that method, returns; they panic when that call panics, as
    it does for a nil pointer of one of the node types of the package held
    in a non-nil error. *)
Theorem absence_propagation (callers : stack) (m format : string)
    (args : list arg) (s : store) :
  (Wrap callers Nil m s = Some (NilPtr TStackError, s)
   /\ Wrapf callers Nil format args s = Some (NilPtr TStackError, s)
   /\ WithMessage Nil m s = Some (NilPtr TCauseMsgCodeError, s)
   /\ WithMessagef Nil format args s = Some (NilPtr TCauseMsgCodeError, s)
   /\ WithStack callers Nil s = (NilPtr TStackError, s))
  /\ (forall e : error,
       e <> Nil -> nil_pointer (WithStack callers e s).1 = false)
  /\ (forall e : error,
       e <> Nil -> Code s e <> Panics ->
       returns_non_nil (Wrap callers e m s)
       /\ returns_non_nil (Wrapf callers e format args s)
       /\ returns_non_nil (WithMessage e m s)
       /\ returns_non_nil (WithMessagef e format args s))
  /\ (forall e : error,
       Code s e = Panics ->
       Wrap callers e m s = None
       /\ Wrapf callers e format args s = None
       /\ WithMessage e m s = None
       /\ WithMessagef e format args s = None)
  /\ (forall t : ptype, NilPtr t <> Nil /\ Code s (NilPtr t) = Panics).
Proof.
  split; [by repeat split |].
  split. { intros e He. by destruct e. }
  split.
  { intros e He Hc. destruct (errCode_of_is_Some s e Hc) as [k Hk].
    unfold returns_non_nil.
    rewrite Wrapf_is_Wrap, WithMessagef_is_WithMessage.
    rewrite !(Wrap_returns _ e _ s k He Hk), !(WithMessage_returns e _ s k He Hk).
    repeat split; by eexists _, _. }
  split.
  { intros e Hc. assert (He : e <> Nil) by (intros ->; discriminate).
    apply errCode_of_None in Hc.
    rewrite Wrapf_is_Wrap, WithMessagef_is_WithMessage.
    destruct (read_code_panics callers e m s He Hc) as [-> ->].
    by destruct (read_code_panics callers e (Sprintf format args) s He Hc)
      as [-> ->]. }
  intros t. by split.
Qed.


(** The root cause of what Wrap returns for a non-nil cause is the root
    cause of that cause. *)
Lemma Cause_Wrap callers e m s w s' :
  e <> Nil -> Wrap callers e m s = Some (w, s') -> Cause w = Cause e /\ w <> Nil.
Proof.
  intros He H. destruct (Wrap_inv callers e m s w s' He H) as (k & _ & -> & _).
  by split.
Qed.

(** What Wrap returns has a Code() that returns. *)
Lemma Code_of_Wrap callers e m s w s' :
  e <> Nil -> Wrap callers e m s = Some (w, s') ->
  exists k : Z, errCode_of s e = Some k /\ Code s' w = Returns k.
Proof.
  intros He H.
  destruct (Wrap_inv callers e m s w s' He H) as (k & Hk & -> & ->).
  exists k. split; [done |]. simpl. unfold load; simpl.
  by rewrite lookup_insert_eq.
Qed.

(** C3, as the code has it. Root-cause traversal: Cause(nil) is nil; a
    non-nil error without a Cause method is its own root cause; Cause
    descends through Cause methods for as long as the current value has
    one and returns the first value that has none (or nil), after one
    iteration of its loop per causer of the chain, and that value is
    determined by the chain; Cause panics when the descent reaches a nil
    pointer whose type has a Cause method; whenever the two calls of Wrap
    return, which they do for a non-nil e whose Code() call does not
    panic, Cause(Wrap(Wrap(e, a), b)) is Cause(e). *)
Theorem root_cause_traversal :
  Cause Nil = Some Nil
  /\ (forall e : error, e <> Nil -> method_Cause e = NoMethod -> Cause e = Some e)
  /\ (forall e r : error,
        Cause e = Some r -> loop_exit r /\ descends (depth e) e r)
  /\ (forall (e r : error) (n : nat),
        descends n e r -> loop_exit r -> Cause e = Some r)
  /\ (forall e : error,
        Cause e = None ->
        exists t : ptype,
          descends (depth e) e (NilPtr t) /\ method_Cause (NilPtr t) = Panics)
  /\ (forall (e : error) (fuel : nat),
        (depth e <= fuel)%nat -> Cause_loop fuel e = Some (Cause e))
  /\ (forall (c1 c2 : stack) (e w1 w2 : error) (a b : string) (s s1 s2 : store),
        e <> Nil ->
        Wrap c1 e a s = Some (w1, s1) ->
        Wrap c2 w1 b s1 = Some (w2, s2) ->
        Cause w2 = Cause e)
  /\ (forall (c1 c2 : stack) (e : error) (a b : string) (s : store),
        e <> Nil -> Code s e <> Panics ->
        exists (w1 w2 : error) (s1 s2 : store),
          Wrap c1 e a s = Some (w1, s1)
          /\ Wrap c2 w1 b s1 = Some (w2, s2)
          /\ Cause w2 = Cause e).
Proof.
  split; [done |]. split.
  { intros e He Hnone. rewrite Cause_unfold, Hnone. by destruct e. }
  split.
  { intros e r H. split; [by apply (Cause_loop_exit e) | by apply Cause_descends]. }
  split.
  { intros e r n. apply descends_exit_unique. }
  split; [apply Cause_panics |].
  split.
  { intros e fuel. apply Cause_loop_enough. }
  split.
  { intros c1 c2 e w1 w2 a b s s1 s2 He H1 H2.
    destruct (Cause_Wrap c1 e a s w1 s1 He H1) as [Hc1 Hw1].
    destruct (Cause_Wrap c2 w1 b s1 w2 s2 Hw1 H2) as [Hc2 _]. congruence. }
  intros c1 c2 e a b s He Hc.
  destruct (errCode_of_is_Some s e Hc) as [k Hk].
  pose proof (Wrap_returns c1 e a s k He Hk) as H1.
  destruct (Code_of_Wrap c1 e a s _ _ He H1) as (k' & _ & Hk').
  assert (Hw1 : StackError (S (next s)) (CauseMsgCodeError (next s) e a) c1 <> Nil)
    by discriminate.
  pose proof (Wrap_returns c2 _ b _ k' Hw1 (errCode_of_Returns _ _ _ Hk')) as H2.
  eexists _, _, _, _. split; [exact H1 |]. split; [exact H2 |]. done.
Qed.

(** ** Allocation

    What the allocator has handed out stays handed out; an operation
    writes no cell that existed before it ran, and what it returns, unless
    a nil pointer, is a node this call allocated. *)

Lemma New_frame callers m s :
  (next s <= next (New callers m s).2)%nat
  /\ (forall l, (l < next s)%nat -> load (New callers m s).2 l = load s l)
  /\ allocated (New callers m s).2 (New callers m s).1
  /\ ~ allocated s (New callers m s).1.
Proof.
  unfold allocated. simpl. repeat split; try lia.
  intros l Hl. unfold load; simpl. rewrite lookup_insert_ne; [done | lia].
Qed.

Lemma Errorf_frame callers format args s :
  (next s <= next (Errorf callers format args s).2)%nat
  /\ (forall l, (l < next s)%nat ->
        load (Errorf callers format args s).2 l = load s l)
  /\ allocated (Errorf callers format args s).2 (Errorf callers format args s).1
  /\ ~ allocated s (Errorf callers format args s).1.
Proof.
  unfold allocated. simpl. repeat split; try lia.
  intros l Hl. unfold load; simpl. rewrite lookup_insert_ne; [done | lia].
Qed.

Lemma WithStack_frame callers e s :
  (next s <= next (WithStack callers e s).2)%nat
  /\ (forall l, (l < next s)%nat -> load (WithStack callers e s).2 l = load s l)
  /\ (allocated s e -> allocated (WithStack callers e s).2 (WithStack callers e s).1)
  /\ (nil_pointer (WithStack callers e s).1 = false ->
      ~ allocated s (WithStack callers e s).1).
Proof.
  split; [destruct e; simpl; lia |].
  split; [intros l Hl; by destruct e |].
  split; [intros Ha; solve_allocated e Ha below_mono |].
  intros Hp. unfold allocated. destruct e; simpl in *; try done;
    first [intros [? _]; lia | intros ?; lia].
Qed.

Lemma WithMessage_frame e m s w s' :
  WithMessage e m s = Some (w, s') ->
  (next s <= next s')%nat
  /\ (forall l, (l < next s)%nat -> load s' l = load s l)
  /\ (allocated s e -> allocated s' w)
  /\ (nil_pointer w = false -> ~ allocated s w).
Proof.
  intros H. destruct (decide (e = Nil)) as [-> | He].
  { inversion H; subst. by repeat split. }
  destruct (WithMessage_inv e m s w s' He H) as (k & _ & -> & ->).
  unfold allocated. simpl. split; [lia |]. split.
  { intros l Hl. unfold load; simpl. rewrite lookup_insert_ne; [done | lia]. }
  split.
  { intros Ha. split; [lia |]. eapply below_mono; [| exact Ha]. lia. }
  intros _ [? _]. lia.
Qed.

Lemma Wrap_frame callers e m s w s' :
  Wrap callers e m s = Some (w, s') ->
  (next s <= next s')%nat
  /\ (forall l, (l < next s)%nat -> load s' l = load s l)
  /\ (allocated s e -> allocated s' w)
  /\ (nil_pointer w = false -> ~ allocated s w).
Proof.
  intros H. destruct (decide (e = Nil)) as [-> | He].
  { inversion H; subst. by repeat split. }
  destruct (Wrap_inv callers e m s w s' He H) as (k & _ & -> & ->).
  unfold allocated. simpl. split; [lia |]. split.
  { intros l Hl. unfold load; simpl. rewrite lookup_insert_ne; [done | lia]. }
  split.
  { intros Ha. split; [lia |]. split; [lia |].
    eapply below_mono; [| exact Ha]. lia. }
  intros _ [? _]. lia.
Qed.

(** Wrap leaves the code of every allocated error as it was. *)
Lemma Code_after_Wrap callers e m s w s' x :
  Wrap callers e m s = Some (w, s') ->
  allocated s x -> Code s' x = Code s x.
Proof.
  intros H Hx. destruct (Wrap_frame callers e m s w s' H) as (_ & Hl & _).
  by apply (Code_agree (next s)).
Qed.

Lemma Code_non_nil s e k : Code s e = Returns k -> e <> Nil.
Proof. by destruct e. Qed.

(** C4. Code inheritance: when e.Code() is K, Wrap(e, m) returns and its
    Code() is K as long as SetCode is not called on the wrapper; after
    SetCode(J) on the wrapper, which returns the wrapper, the wrapper's
    Code() is J and e.Code() is still K. *)
Theorem code_inheritance (callers : stack) (e : error) (m : string)
    (K J : Z) (s : store) :
  allocated s e ->
  Code s e = Returns K ->
  exists (w : error) (s1 : store),
    Wrap callers e m s = Some (w, s1)
    /\ Code s1 w = Returns K
    /\ Code s1 e = Returns K
    /\ exists s2 : store,
         SetCode J w s1 = Returns (w, s2)
         /\ Code s2 w = Returns J
         /\ Code s2 e = Returns K.
Proof.
  intros Ha HK. pose proof (Code_non_nil _ _ _ HK) as He.
  pose proof (Wrap_returns callers e m s K He (errCode_of_Returns _ _ _ HK)) as HW.
  eexists _, _. split; [exact HW |].
  split.
  { simpl. unfold load; simpl. by rewrite lookup_insert_eq. }
  split.
  { rewrite <- HK. by apply (Code_after_Wrap callers e m s _ _ e HW). }
  eexists. split; [reflexivity |]. split.
  { simpl. by rewrite load_assign_eq. }
  rewrite <- HK. apply (Code_agree (next s)); [done |].
  intros l Hl. unfold load, assign; simpl.
  rewrite !lookup_insert_ne; [done | lia | lia].
Qed.

(** The code a base constructor stores: New initialises the field to
    ErrCodeNotDefined; Errorf leaves it out of the composite literal, so
    the field is the zero value 0, whatever ErrCodeNotDefined is. *)
Lemma constructor_codes (callers : stack) (m format : string)
    (args : list arg) (s : store) :
  Code (New callers m s).2 (New callers m s).1 = Returns ErrCodeNotDefined
  /\ Code (Errorf callers format args s).2 (Errorf callers format args s).1
     = Returns 0.
Proof. split; simpl; unfold load; simpl; by rewrite lookup_insert_eq. Qed.

(** Errorf agrees with New on the code exactly when the constant is 0. *)
Lemma Errorf_sentinel_iff callers format args s :
  Code (Errorf callers format args s).2 (Errorf callers format args s).1
  = Returns ErrCodeNotDefined
  <-> ErrCodeNotDefined = 0.
Proof.
  simpl. unfold load; simpl. rewrite lookup_insert_eq. simpl.
  split; [intros H; by inversion H | by intros ->].
Qed.

(** [SetCode] returns its receiver. *)
Lemma SetCode_receiver code e s r s' :
  SetCode code e s = Returns (r, s') -> r = e.
Proof.
  destruct e; simpl; intros H; try discriminate; try (by inversion H).
  destruct (SetCode code e s) as [| | [? ?]]; by inversion H.
Qed.

(** [SetCode] writes only at addresses of the chain. *)
Lemma SetCode_frame code e s r s' n l :
  SetCode code e s = Returns (r, s') ->
  below n e -> (n <= l)%nat -> load s' l = load s l.
Proof.
  revert r s'. induction e as [| t | l0 msg stk | l0 err IH stk | l0 cause IH msg
                               | msg code' | msg code' cause IH];
    simpl; intros r s' H Hb Hl; try discriminate.
  - inversion H; subst. apply load_assign_ne. lia.
  - destruct Hb as [_ Hb].
    destruct (SetCode code err s) as [| | [r0 s0]] eqn:E; try discriminate.
    + by inversion H.
    + inversion H; subst. eauto.
  - inversion H; subst. apply load_assign_ne. lia.
Qed.

(** [Code] and [SetCode] act on the cell the delegation ends at. *)
Lemma Code_code_cell s e l : code_cell e = Some l -> Code s e = Returns (load s l).
Proof.
  induction e; simpl; intros H; try discriminate; try (by inversion H).
  by rewrite (IHe H).
Qed.

Lemma SetCode_code_cell code e s l :
  code_cell e = Some l -> SetCode code e s = Returns (e, assign l code s).
Proof.
  induction e; simpl; intros H; try discriminate; try (by inversion H).
  by rewrite (IHe H).
Qed.

(** C6. Base accessors: New(m).Error() is m; SetCode on the node New
    returns always succeeds and returns that same node; Code() afterwards
    is the code that was set. *)
Theorem base_accessors (callers : stack) (m : string) (c : Z) (s : store) :
  Error (New callers m s).1 = Some m
  /\ SetCode c (New callers m s).1 (New callers m s).2
     = Returns ((New callers m s).1, assign (next s) c (New callers m s).2)
  /\ Code (assign (next s) c (New callers m s).2) (New callers m s).1 = Returns c
  /\ (forall (l : loc) (msg : string) (stk : stack) (s0 : store),
        Error (MsgCodeErr l msg stk) = Some msg
        /\ exists s1 : store,
             SetCode c (MsgCodeErr l msg stk) s0 = Returns (MsgCodeErr l msg stk, s1)
             /\ Code s1 (MsgCodeErr l msg stk) = Returns c).
Proof.
  split; [done |]. split; [done |]. split.
  { simpl. by rewrite load_assign_eq. }
  intros l msg stk s0. split; [done |].
  eexists. split; [reflexivity |]. simpl. by rewrite load_assign_eq.
Qed.


(** C8, as the code has it. Composite structure of Wrap: for a non-nil e,
    Wrap(e, m) is WithStack applied to WithMessage(e, m), both panicking
    when e.Code() panics; when it does not, the result is a StackError
    around a CauseMsgCodeError which carries m and the code of e, or
    ErrCodeNotDefined when e has no Code method; Cause() of the result is
    the message node and Cause() of the message node is e; the chain gains
    one message and one stack, both in front.  For a nil cause the two
    differ: Wrap returns nil, and WithStack, handed the nil pointer that
    WithMessage returns, returns a non-nil node. *)
Theorem Wrap_composite (callers : stack) (e : error) (m : string) (s : store) :
  (e <> Nil ->
   Wrap callers e m s = WithStack_of_WithMessage callers e m s)
  /\ (e <> Nil -> Code s e <> Panics ->
      exists (l l' : loc) (s1 s2 : store),
        l <> l'
        /\ ~ below (next s) (StackError l' (CauseMsgCodeError l e m) callers)
        /\ WithMessage e m s = Some (CauseMsgCodeError l e m, s1)
        /\ Wrap callers e m s
           = Some (StackError l' (CauseMsgCodeError l e m) callers, s2)
        /\ Code s2 (CauseMsgCodeError l e m)
           = Returns (match Code s e with
                      | Returns k => k
                      | _ => ErrCodeNotDefined
                      end)
        /\ method_Cause (StackError l' (CauseMsgCodeError l e m) callers)
           = Returns (CauseMsgCodeError l e m)
        /\ method_Cause (CauseMsgCodeError l e m) = Returns e
        /\ messages (StackError l' (CauseMsgCodeError l e m) callers)
           = m :: messages e
        /\ stacks (StackError l' (CauseMsgCodeError l e m) callers)
           = callers :: stacks e)
  /\ (e <> Nil -> Code s e = Panics ->
      Wrap callers e m s = None
      /\ WithStack_of_WithMessage callers e m s = None)
  /\ (Wrap callers Nil m s = Some (NilPtr TStackError, s)
      /\ WithStack_of_WithMessage callers Nil m s
         = Some (StackError (next s) (NilPtr TCauseMsgCodeError) callers,
                 Store (codes s) (S (next s)))).
Proof.
  split.
  { intros He. unfold WithStack_of_WithMessage.
    destruct (errCode_of s e) as [k |] eqn:Hk.
    - by rewrite (Wrap_returns callers e m s k He Hk),
        (WithMessage_returns e m s k He Hk).
    - by destruct (read_code_panics callers e m s He Hk) as (-> & ->). }
  split.
  { intros He Hc. destruct (errCode_of_is_Some s e Hc) as [k Hk].
    exists (next s), (S (next s)). eexists _, _.
    rewrite (Wrap_returns callers e m s k He Hk),
      (WithMessage_returns e m s k He Hk).
    split; [lia |]. split; [simpl; lia |].
    split; [done |]. split; [done |].
    split.
    { simpl. unfold load; simpl. rewrite lookup_insert_eq. simpl.
      unfold errCode_of in Hk. destruct (Code s e); by inversion Hk. }
    by repeat split. }
  split.
  { intros He Hc. apply errCode_of_None in Hc. unfold WithStack_of_WithMessage.
    by destruct (read_code_panics callers e m s He Hc) as (-> & ->). }
  by split.
Qed.

(** C10. Unwrap and Cause agree: a StackError and a CauseMsgCodeError have
    both methods and both return the wrapped error; every non-nil result
    of the five annotation operations is such a node; on a nil pointer the
    two methods behave alike as well. *)
Theorem Unwrap_agrees_with_Cause :
  (forall (l : loc) (err : error) (stk : stack),
      method_Cause (StackError l err stk) = Returns err
      /\ method_Unwrap (StackError l err stk) = Returns err)
  /\ (forall (l : loc) (cause : error) (msg : string),
      method_Cause (CauseMsgCodeError l cause msg) = Returns cause
      /\ method_Unwrap (CauseMsgCodeError l cause msg) = Returns cause)
  /\ (forall t : ptype, method_Unwrap (NilPtr t) = method_Cause (NilPtr t))
  /\ (forall (callers : stack) (e : error) (m format : string)
             (args : list arg) (s : store) (w : error),
      e <> Nil ->
      Some w ∈ [ fst <$> Wrap callers e m s;
                 fst <$> Wrapf callers e format args s;
                 fst <$> WithMessage e m s;
                 fst <$> WithMessagef e format args s;
                 Some (WithStack callers e s).1 ] ->
      (exists c : error, method_Cause w = Returns c)
      /\ method_Unwrap w = method_Cause w).
Proof.
  split; [done |]. split; [done |]. split; [by intros [] |].
  intros callers e m format args s w He Hw.
  rewrite Wrapf_is_Wrap, WithMessagef_is_WithMessage in Hw.
  rewrite (WithStack_returns callers e s He) in Hw.
  destruct (errCode_of s e) as [k |] eqn:Hk.
  - rewrite !(Wrap_returns _ e _ s k He Hk),
      !(WithMessage_returns e _ s k He Hk) in Hw.
    simpl in Hw.
    repeat (apply elem_of_cons in Hw as [Hw | Hw]; [inversion Hw; subst; eauto |]).
    by apply elem_of_nil in Hw.
  - destruct (read_code_panics callers e m s He Hk) as (H1 & H3).
    destruct (read_code_panics callers e (Sprintf format args) s He Hk)
      as (H1' & H3').
    rewrite H1, H1', H3, H3' in Hw. simpl in Hw.
    repeat (apply elem_of_cons in Hw as [Hw | Hw]; [inversion Hw; subst; eauto |]).
    by apply elem_of_nil in Hw.
Qed.

(** What a stack writes holds no message, and holds its frames in order. *)
Lemma written_messages_stack stk : written_messages (stack_Format stk) = [].
Proof. induction stk; [done | by simpl]. Qed.

Lemma written_frames_stack stk : written_frames (stack_Format stk) = stk.
Proof.
  induction stk as [| f stk IH]; [done |].
  unfold written_frames, stack_Format in *. simpl. f_equal. exact IH.
Qed.

Lemma written_messages_app a b :
  written_messages (a ++ b) = written_messages a ++ written_messages b.
Proof. apply omap_app. Qed.

Lemma written_frames_app a b :
  written_frames (a ++ b) = written_frames a ++ written_frames b.
Proof. apply omap_app. Qed.

(** fmt hands a node of this package to its own Format method. *)
Lemma extended_node e :
  package_node e = true -> extended e = Format e true "v"%char.
Proof. by destruct e. Qed.

(** The extended rendering, node by node. *)
Lemma extended_StackError l err stk :
  extended (StackError l err stk)
  = match extended err with
    | Some out => Some (out ++ stack_Format stk)
    | None => None
    end.
Proof. reflexivity. Qed.

Lemma extended_CauseMsgCodeError l cause msg :
  extended (CauseMsgCodeError l cause msg)
  = match extended cause with
    | Some out => Some (out ++ [Literal (String "010" EmptyString); Message msg])
    | None => None
    end.
Proof. reflexivity. Qed.

(** C9, as the code has it. Extended rendering: formatting an error with
    the verb v and the flag + always succeeds and writes every message of
    the chain and every captured stack; the messages appear from the
    innermost to the outermost (the cause is rendered first, then the
    message of the node), the stacks likewise from the innermost node to
    the outermost, and the frames of each stack in the order they were
    captured. *)
Theorem extended_rendering (e : error) :
  exists out : list chunk,
    extended e = Some out
    /\ written_messages out = rev (messages e)
    /\ written_frames out = concat (rev (stacks e))
    /\ match e with
       | MsgCodeErr _ _ _ | StackError _ _ _ | CauseMsgCodeError _ _ _ =>
           Format e true "v"%char = Some out
       | _ => True
       end.
Proof.
  induction e as [| t | l msg stk | l err (out & Hout & Hm & Hf & _) stk
                  | l cause (out & Hout & Hm & Hf & _) msg
                  | msg code | msg code cause _].
  - by eexists.
  - by eexists.
  - exists ([Message msg] ++ stack_Format stk).
    split; [reflexivity |]. split; [| split; [| reflexivity]].
    + by rewrite written_messages_app, written_messages_stack.
    + rewrite written_frames_app, written_frames_stack. simpl.
      by rewrite app_nil_r.
  - exists (out ++ stack_Format stk).
    rewrite <- (extended_node (StackError l err stk)) by done.
    rewrite extended_StackError, Hout.
    split; [done |]. simpl. split; [| split; [| done]].
    + by rewrite written_messages_app, written_messages_stack, app_nil_r.
    + rewrite written_frames_app, written_frames_stack, Hf.
      by rewrite concat_app; simpl; rewrite app_nil_r.
  - eexists.
    rewrite <- (extended_node (CauseMsgCodeError l cause msg)) by done.
    rewrite extended_CauseMsgCodeError, Hout.
    split; [reflexivity |]. simpl. split; [| split; [| done]].
    + by rewrite written_messages_app, Hm.
    + rewrite written_frames_app, Hf. simpl. by rewrite app_nil_r.
  - by eexists.
  - by eexists.
Qed.

(** ** Further properties of the methods and operations *)

Lemma string_app_nil_r (t : string) : t +:+ EmptyString = t.
Proof.
  induction t as [| a t IH]; [done |].
  change (String a (t +:+ EmptyString) = String a t). by rewrite IH.
Qed.

Lemma string_app_assoc (a b c : string) : (a +:+ b) +:+ c = a +:+ (b +:+ c).
Proof.
  induction a as [| x a IH]; [done |].
  change (String x ((a +:+ b) +:+ c) = String x (a +:+ (b +:+ c))).
  by rewrite IH.
Qed.

(** X1. Short form: under the verb s, and under v without the flag +, the
    Format method of every node of this package writes exactly the text
    Error() returns, and panics exactly when Error() does; no frame of any
    stack is written. *)
Theorem short_form_is_Error (e : error) (plus : bool) (verb : ascii) :
  package_node e = true ->
  verb = "s"%char \/ (verb = "v"%char /\ plus = false) ->
  text <$> Format e plus verb = Error e
  /\ (forall out : list chunk,
        Format e plus verb = Some out -> written_frames out = []).
Proof.
  intros Hnode Hverb.
  assert (Hcases : (plus = false /\ verb = "v"%char) \/ verb = "s"%char)
    by (destruct Hverb as [-> | [-> ->]]; auto).
  destruct e as [| t | l msg stk | l err stk | l cause msg | msg code | msg code cause];
    try discriminate Hnode.
  - destruct Hcases as [[-> ->] | ->]; simpl;
      (split; [by rewrite string_app_nil_r | by intros out [= <-]]).
  - destruct Hcases as [[-> ->] | ->]; simpl;
      destruct (Error err) as [t |]; simpl;
      (split; [by rewrite ?string_app_nil_r | by intros out [= <-]]).
  - destruct Hcases as [[-> ->] | ->]; simpl;
      destruct (Error cause) as [t |]; simpl;
      (split; [by rewrite ?string_app_nil_r | by intros out [= <-]]).
Qed.

(** X2. The other verbs: under q a MsgCodeErr and a StackError write the
    quoted Error() text, while a CauseMsgCodeError writes the same unquoted
    text as under s; the flag + changes nothing under s and q; under any
    verb other than v, s and q every node writes nothing and does not
    panic, even where Error() would. *)
Theorem other_verbs (plus : bool) :
  (forall (l : loc) (msg : string) (stk : stack),
      text <$> Format (MsgCodeErr l msg stk) plus "q" = Some (Quote msg))
  /\ (forall (l : loc) (err : error) (stk : stack),
      text <$> Format (StackError l err stk) plus "q" = Quote <$> Error err)
  /\ (forall (l : loc) (cause : error) (msg : string),
      Format (CauseMsgCodeError l cause msg) plus "q"
      = Format (CauseMsgCodeError l cause msg) plus "s"
      /\ text <$> Format (CauseMsgCodeError l cause msg) plus "q"
         = Error (CauseMsgCodeError l cause msg))
  /\ (forall e : error,
      Format e plus "s" = Format e (negb plus) "s"
      /\ Format e plus "q" = Format e (negb plus) "q")
  /\ (forall (e : error) (verb : ascii),
      package_node e = true ->
      verb <> "v"%char -> verb <> "s"%char -> verb <> "q"%char ->
      Format e plus verb = Some []).
Proof.
  split. { intros l msg stk. simpl. by rewrite string_app_nil_r. }
  split.
  { intros l err stk. simpl. destruct (Error err); simpl; [| done].
    by rewrite string_app_nil_r. }
  split.
  { intros l cause msg. split; [done |]. simpl.
    destruct (Error cause); simpl; [| done]. by rewrite string_app_nil_r. }
  split. { intros e. by destruct e. }
  intros e verb Hnode Hv Hs Hq.
  apply Ascii.eqb_neq in Hv, Hs, Hq.
  destruct e; try discriminate Hnode; simpl; by rewrite Hv, Hs, Hq.
Qed.

(** The cell the delegation ends at belongs to the chain. *)
Lemma code_cell_below n e l : below n e -> code_cell e = Some l -> (l < n)%nat.
Proof.
  induction e; simpl; intros Hb Hc; try discriminate.
  - by inversion Hc; subst.
  - destruct Hb as [_ Hb]. auto.
  - destruct Hb as [Hl _]. by inversion Hc; subst.
Qed.

(** A store that only grew, and kept the cells it had, keeps every error
    allocated and every code. *)
Lemma frame_step s s' x :
  (next s <= next s')%nat ->
  (forall l, (l < next s)%nat -> load s' l = load s l) ->
  allocated s x ->
  allocated s' x /\ Code s' x = Code s x.
Proof.
  intros Hn Hl Hx. split; [by apply (allocated_mono s) |].
  by apply (Code_agree (next s)).
Qed.

(** X3. The code of a wrapper made by Wrap or WithMessage is a copy taken
    when the wrapper is made: SetCode on the wrapped error afterwards
    changes the code of that error and leaves the code of the wrapper what
    it was. *)
Theorem wrapper_code_is_a_copy (callers : stack) (e : error) (m : string)
    (J : Z) (s : store) (l : loc) :
  allocated s e ->
  code_cell e = Some l ->
  (exists (w : error) (s1 : store),
      Wrap callers e m s = Some (w, s1)
      /\ SetCode J e s1 = Returns (e, assign l J s1)
      /\ Code (assign l J s1) e = Returns J
      /\ Code (assign l J s1) w = Code s e)
  /\ (exists (w : error) (s1 : store),
      WithMessage e m s = Some (w, s1)
      /\ SetCode J e s1 = Returns (e, assign l J s1)
      /\ Code (assign l J s1) e = Returns J
      /\ Code (assign l J s1) w = Code s e).
Proof.
  intros Ha Hc. pose proof (code_cell_below _ _ _ Ha Hc) as Hl.
  assert (He : e <> Nil) by (by destruct e).
  assert (Hcode : Code s e = Returns (load s l)) by (by apply Code_code_cell).
  pose proof (errCode_of_Returns _ _ _ Hcode) as Hk.
  split.
  - eexists _, _. split; [exact (Wrap_returns callers e m s _ He Hk) |].
    split; [by apply SetCode_code_cell |].
    split; [by rewrite (Code_code_cell _ e l Hc), load_assign_eq |].
    simpl. rewrite load_assign_ne by lia.
    unfold load at 1; simpl. rewrite lookup_insert_eq. simpl.
    by rewrite Hcode.
  - eexists _, _. split; [exact (WithMessage_returns e m s _ He Hk) |].
    split; [by apply SetCode_code_cell |].
    split; [by rewrite (Code_code_cell _ e l Hc), load_assign_eq |].
    simpl. rewrite load_assign_ne by lia.
    unfold load at 1; simpl. rewrite lookup_insert_eq. simpl.
    by rewrite Hcode.
Qed.

(** X4. The code of a wrapper made by WithStack is the code of the wrapped
    error, in every later state of the store: SetCode on the wrapper
    changes the code of the wrapped error, and SetCode on the wrapped
    error shows through the wrapper. *)
Theorem WithStack_shares_code (callers : stack) (e : error) (J : Z)
    (s : store) (l : loc) :
  code_cell e = Some l ->
  SetCode J (WithStack callers e s).1 (WithStack callers e s).2
  = Returns ((WithStack callers e s).1, assign l J (WithStack callers e s).2)
  /\ Code (assign l J (WithStack callers e s).2) e = Returns J
  /\ (forall s' : store, Code s' (WithStack callers e s).1 = Code s' e)
  /\ (forall s' : store,
        exists s2 : store,
          SetCode J e s' = Returns (e, s2)
          /\ Code s2 (WithStack callers e s).1 = Returns J).
Proof.
  intros Hc.
  assert (Hw : (WithStack callers e s).1 = StackError (next s) e callers)
    by (by destruct e).
  rewrite Hw.
  split.
  { simpl. rewrite (SetCode_code_cell J e _ l Hc). by destruct e. }
  split; [by rewrite (Code_code_cell _ e l Hc), load_assign_eq |].
  split.
  { intros s'. simpl. by rewrite (Code_code_cell s' e l Hc). }
  intros s'. exists (assign l J s'). split; [by apply SetCode_code_cell |].
  simpl. by rewrite (Code_code_cell _ e l Hc), load_assign_eq.
Qed.

(** The shape of the argument for one operation that returned [rs]. *)
Lemma local_result s x (rs : error * store) :
  (next s <= next rs.2)%nat ->
  (forall l, (l < next s)%nat -> load rs.2 l = load s l) ->
  allocated s x ->
  allocated rs.2 rs.1 ->
  (nil_pointer rs.1 = false -> ~ allocated s rs.1) ->
  allocated rs.2 x
  /\ Code rs.2 x = Code s x
  /\ allocated rs.2 rs.1
  /\ (nil_pointer rs.1 = false -> ~ allocated s rs.1 /\ rs.1 <> x).
Proof.
  intros Hn Hl Hx Hr Hnew.
  destruct (frame_step s rs.2 x Hn Hl Hx) as [H1 H2].
  repeat split; try done; [by apply Hnew |].
  intros Heq. apply (Hnew H). by rewrite Heq.
Qed.

(** X5. Construction is local: whichever constructor or annotation
    operation runs, if it returns then every error allocated before keeps
    its code and stays allocated, and a non-nil result is a new node,
    allocated by this call and different from every error allocated
    before; the operations return unless the Code() call on their argument
    panics. *)
Theorem construction_is_local (callers : stack) (e x : error)
    (m format : string) (args : list arg) (s : store) :
  allocated s e ->
  allocated s x ->
  Forall (fun r : option (error * store) =>
            forall rs : error * store,
              r = Some rs ->
              allocated rs.2 x
              /\ Code rs.2 x = Code s x
              /\ allocated rs.2 rs.1
              /\ (nil_pointer rs.1 = false -> ~ allocated s rs.1 /\ rs.1 <> x))
    [ Some (New callers m s); Some (Errorf callers format args s);
      Some (WithStack callers e s); WithMessage e m s;
      WithMessagef e format args s; Wrap callers e m s;
      Wrapf callers e format args s ]
  /\ (Code s e <> Panics ->
      is_Some (WithMessage e m s)
      /\ is_Some (WithMessagef e format args s)
      /\ is_Some (Wrap callers e m s)
      /\ is_Some (Wrapf callers e format args s)).
Proof.
  intros He Hx. split.
  - rewrite Wrapf_is_Wrap, WithMessagef_is_WithMessage.
    repeat apply Forall_cons_2; try apply Forall_nil_2.
    + intros rs [= <-]. destruct (New_frame callers m s) as (H1 & H2 & H3 & H4).
      by apply local_result.
    + intros rs [= <-].
      destruct (Errorf_frame callers format args s) as (H1 & H2 & H3 & H4).
      by apply local_result.
    + intros rs [= <-].
      destruct (WithStack_frame callers e s) as (H1 & H2 & H3 & H4).
      apply local_result; auto.
    + intros [w s'] H.
      destruct (WithMessage_frame e m s w s' H) as (H1 & H2 & H3 & H4).
      apply local_result; auto.
    + intros [w s'] H.
      destruct (WithMessage_frame e _ s w s' H) as (H1 & H2 & H3 & H4).
      apply local_result; auto.
    + intros [w s'] H.
      destruct (Wrap_frame callers e m s w s' H) as (H1 & H2 & H3 & H4).
      apply local_result; auto.
    + intros [w s'] H.
      destruct (Wrap_frame callers e _ s w s' H) as (H1 & H2 & H3 & H4).
      apply local_result; auto.
  - intros Hc. rewrite Wrapf_is_Wrap, WithMessagef_is_WithMessage.
    destruct (decide (e = Nil)) as [-> | Hn]; [by repeat split |].
    destruct (errCode_of_is_Some s e Hc) as [k Hk].
    rewrite !(Wrap_returns _ e _ s k Hn Hk), !(WithMessage_returns e _ s k Hn Hk).
    by repeat split.
Qed.


(** [Code] does not look at the allocator. *)
Lemma Code_codes s s' e : codes s' = codes s -> Code s' e = Code s e.
Proof.
  intros Hc. induction e; simpl; try done; unfold load; by rewrite ?Hc, ?IHe.
Qed.

(** X7. A cause without a Code method: WithStack of it reports the code
    0, while WithMessage and Wrap of it report ErrCodeNotDefined; the
    difference survives further wrapping, so Wrap around WithStack reports
    0 and WithStack around Wrap reports ErrCodeNotDefined. *)
Theorem code_without_Code_method (c1 c2 : stack) (e : error) (m : string)
    (s : store) :
  e <> Nil ->
  Code s e = NoMethod ->
  Code (WithStack c1 e s).2 (WithStack c1 e s).1 = Returns 0
  /\ (exists (w : error) (s1 : store),
        WithMessage e m s = Some (w, s1)
        /\ Code s1 w = Returns ErrCodeNotDefined)
  /\ (exists (w : error) (s1 : store),
        Wrap c1 e m s = Some (w, s1)
        /\ Code s1 w = Returns ErrCodeNotDefined)
  /\ (exists (w : error) (s1 : store),
        Wrap c2 (WithStack c1 e s).1 m (WithStack c1 e s).2 = Some (w, s1)
        /\ Code s1 w = Returns 0)
  /\ (exists (w1 : error) (s1 : store),
        Wrap c1 e m s = Some (w1, s1)
        /\ Code (WithStack c2 w1 s1).2 (WithStack c2 w1 s1).1
           = Returns ErrCodeNotDefined).
Proof.
  intros He Hc.
  assert (Hk : errCode_of s e = Some ErrCodeNotDefined)
    by (unfold errCode_of; by rewrite Hc).
  rewrite (WithStack_returns c1 e s He).
  assert (Hc' : Code (Store (codes s) (S (next s))) e = NoMethod)
    by (by rewrite (Code_codes s _ e)).
  split. { simpl. by rewrite Hc'. }
  split.
  { eexists _, _. split; [exact (WithMessage_returns e m s _ He Hk) |].
    simpl. unfold load; simpl. by rewrite lookup_insert_eq. }
  split.
  { eexists _, _. split; [exact (Wrap_returns c1 e m s _ He Hk) |].
    simpl. unfold load; simpl. by rewrite lookup_insert_eq. }
  split.
  { assert (Hk0 : errCode_of (Store (codes s) (S (next s)))
                    (StackError (next s) e c1) = Some 0).
    { unfold errCode_of. simpl. by rewrite Hc'. }
    eexists _, _. split; [apply (Wrap_returns c2 _ m _ 0); [done | exact Hk0] |].
    simpl. unfold load; simpl. by rewrite lookup_insert_eq. }
  eexists _, _. split; [exact (Wrap_returns c1 e m s _ He Hk) |].
  simpl. unfold load; simpl. by rewrite lookup_insert_eq.
Qed.

(** X8. Repeated wrapping: any number of calls of Wrap around a non-nil e
    whose Code() call does not panic all return; the result is non-nil,
    its root cause is the root cause of e, the messages and the stacks of
    the chain are those of the calls, last call first, followed by those
    of e, Cause needs two more steps per call, and, once Wrap was called
    at all, Code() is the code e had at the first call, or
    ErrCodeNotDefined when e has no Code method.  When the Code() call on
    e panics, the first call of Wrap panics. *)
Theorem repeated_Wrap (layers : list (stack * string)) (e : error) (s : store) :
  e <> Nil ->
  (Code s e <> Panics ->
   exists (w : error) (s' : store),
     Wrap_each layers e s = Some (w, s')
     /\ w <> Nil
     /\ nil_pointer w = false
     /\ Cause w = Cause e
     /\ messages w = rev (layers.*2) ++ messages e
     /\ stacks w = rev (layers.*1) ++ stacks e
     /\ depth w = (2 * length layers + depth e)%nat
     /\ (layers <> [] ->
         exists k : Z, errCode_of s e = Some k /\ Code s' w = Returns k))
  /\ (Code s e = Panics -> layers <> [] -> Wrap_each layers e s = None).
Proof.
  intros He. split.
  - revert e s He. induction layers as [| [callers m] rest IH]; intros e s He Hc.
    + exists e, s. simpl. repeat split; try done.
      destruct e; simpl in *; done.
    + destruct (errCode_of_is_Some s e Hc) as [k Hk].
      pose proof (Wrap_returns callers e m s k He Hk) as HW.
      destruct (Code_of_Wrap callers e m s _ _ He HW) as (k' & Hk' & Hcode).
      assert (k' = k) by congruence. subst k'.
      simpl. rewrite HW.
      set (w1 := StackError (S (next s)) (CauseMsgCodeError (next s) e m) callers) in *.
      set (s1 := Store (<[next s := k]> (codes s)) (S (S (next s)))) in *.
      assert (Hw1 : w1 <> Nil) by done.
      assert (Hc1 : Code s1 w1 <> Panics) by (rewrite Hcode; done).
      destruct (IH w1 s1 Hw1 Hc1) as (w & s' & HE & H1 & H2 & H3 & H4 & H5 & H6 & H7).
      exists w, s'. split; [done |]. split; [done |]. split; [done |].
      split. { by rewrite H3. }
      split. { rewrite H4. simpl. by rewrite <- app_assoc. }
      split. { rewrite H5. simpl. by rewrite <- app_assoc. }
      split. { rewrite H6. simpl. lia. }
      intros _. exists k. split; [done |].
      destruct rest as [| layer rest'].
      * simpl in HE. inversion HE; subst. exact Hcode.
      * destruct (H7 ltac:(done)) as (k2 & Hk2 & Hres).
        rewrite (errCode_of_Returns _ _ _ Hcode) in Hk2. congruence.
  - intros Hc Hl. destruct layers as [| [callers m] rest]; [done |].
    apply errCode_of_None in Hc.
    destruct (read_code_panics callers e m s He Hc) as [HW _].
    simpl. by rewrite HW.
Qed.

(** X9. The short form ends with the root cause: for a chain made of nodes
    of this package, Error() panics exactly when Cause panics or the root
    cause is nil (the nil interface or a nil pointer), and otherwise it is
    the Error() text of the root cause behind a prefix that holds the
    message of every CauseMsgCodeError of the chain followed by ": ". *)
Theorem Error_ends_with_root_cause (e : error) :
  no_foreign_causer e = true ->
  (Error e = None
   <-> Cause e = None \/ Cause e = Some Nil
       \/ exists t : ptype, Cause e = Some (NilPtr t))
  /\ (forall (r : error) (t : string),
        Cause e = Some r ->
        Error r = Some t ->
        Error e
        = Some (foldr (fun m acc => m +:+ ": " +:+ acc) t
                  (take (length (messages e) - 1) (messages e)))).
Proof.
  induction e as [| p | l msg stk | l err IH stk | l cause IH msg
                  | msg code | msg code cause IH]; simpl; intros Hn;
    try discriminate.
  - split; [split; auto | by intros r t [= <-] [=]].
  - split.
    + split; [| done]. intros _. destruct p; eauto.
    + intros r t Hr Ht. destruct p; inversion Hr; subst; discriminate.
  - split.
    + split; [done |]. intros [H | [H | [t H]]]; discriminate.
    + by intros r t [= <-] [= <-].
  - by apply IH.
  - destruct (IH Hn) as [Hnone Hsome]. split.
    + rewrite <- Hnone. destruct (Error cause); split; intros [=]; done.
    + intros r t Hr Ht. rewrite (Hsome r t Hr Ht).
      assert (Hlen : messages cause <> []).
      { assert (Hcs : is_Some (Error cause)).
        { destruct (Error cause) eqn:E; [eauto |].
          destruct Hnone as [Hx _]. specialize (Hx eq_refl).
          destruct Hx as [Hx | [Hx | [p Hx]]]; rewrite Hx in Hr;
            inversion Hr; subst; discriminate. }
        clear - Hcs. induction cause; simpl in *; try done;
          destruct Hcs as [t Ht]; try discriminate; eauto. }
      destruct (messages cause) as [| m0 ms] eqn:E; [done |].
      simpl. by rewrite Nat.sub_0_r.
  - split.
    + split; [done |]. intros [H | [H | [t H]]]; discriminate.
    + by intros r t [= <-] [= <-].
Qed.

(** X10. The root cause is stable: the root cause of a root cause is
    itself and has no Cause method; for a non-nil e, WithStack keeps the
    root cause (and the panic, where Cause panics), and so does each of
    WithMessage, WithMessagef, Wrap and Wrapf whenever it returns.  For a
    nil e the five operations return a nil pointer, on which Cause panics
    although Cause(nil) returns nil. *)
Theorem Cause_is_stable (callers : stack) (e : error) (m format : string)
    (args : list arg) (s : store) :
  (forall r : error,
      Cause e = Some r -> Cause r = Some r /\ method_Cause r = NoMethod)
  /\ (e <> Nil -> Cause (WithStack callers e s).1 = Cause e)
  /\ (forall (w : error) (s' : store),
        e <> Nil ->
        WithMessage e m s = Some (w, s')
        \/ WithMessagef e format args s = Some (w, s')
        \/ Wrap callers e m s = Some (w, s')
        \/ Wrapf callers e format args s = Some (w, s') ->
        Cause w = Cause e)
  /\ (Cause Nil = Some Nil
      /\ Cause (WithStack callers Nil s).1 = None
      /\ forall (w : error) (s' : store),
           WithMessage Nil m s = Some (w, s')
           \/ WithMessagef Nil format args s = Some (w, s')
           \/ Wrap callers Nil m s = Some (w, s')
           \/ Wrapf callers Nil format args s = Some (w, s') ->
           Cause w = None).
Proof.
  split.
  { induction e as [| t | l msg stk | l err IH stk | l cause IH msg
                    | msg code | msg code cause IH]; simpl; intros r H; auto;
      try (inversion H; subst; by split).
    destruct t; inversion H; subst; by split. }
  split. { intros He. by rewrite (WithStack_returns callers e s He). }
  split.
  { intros w s' He H. rewrite Wrapf_is_Wrap, WithMessagef_is_WithMessage in H.
    destruct H as [H | [H | [H | H]]].
    - by destruct (WithMessage_inv e _ s w s' He H) as (k & _ & -> & _).
    - by destruct (WithMessage_inv e _ s w s' He H) as (k & _ & -> & _).
    - by destruct (Cause_Wrap callers e _ s w s' He H).
    - by destruct (Cause_Wrap callers e _ s w s' He H). }
  split; [done |]. split; [done |].
  intros w s' [H | [H | [H | H]]]; by inversion H.
Qed.

(** X11. SetCode is a single assignment: whenever the SetCode call on an
    error returns, it returns the receiver, allocates nothing and changes
    no code cell but the one the delegation ends at; when there is such a
    cell, Code() afterwards returns the code set and a second SetCode
    overrides the first; when there is none (stack layers around a value
    without SetCode), the call changes nothing. *)
Theorem SetCode_single_assignment (code code' : Z) (e r : error) (s s' : store) :
  SetCode code e s = Returns (r, s') ->
  r = e
  /\ next s' = next s
  /\ (forall l : loc, code_cell e <> Some l -> load s' l = load s l)
  /\ match code_cell e with
     | Some l =>
         s' = assign l code s
         /\ Code s' e = Returns code
         /\ (exists s2 : store,
               SetCode code' e s' = Returns (e, s2)
               /\ SetCode code' e s = Returns (e, s2))
     | None => s' = s
     end.
Proof.
  intros Hset.
  split; [by apply (SetCode_receiver code e s r s') |].
  split; [by apply (SetCode_next code e s r s') |].
  destruct (code_cell e) as [l |] eqn:Hc.
  - rewrite (SetCode_code_cell code e s l Hc) in Hset.
    inversion Hset; subst r s'; clear Hset.
    split. { intros l' Hne. apply load_assign_ne. congruence. }
    split; [done |].
    split. { by rewrite (Code_code_cell _ e l Hc), load_assign_eq. }
    exists (assign l code' s).
    split; [| by apply SetCode_code_cell].
    rewrite (SetCode_code_cell code' e _ l Hc). do 2 f_equal.
    unfold assign; simpl. by rewrite insert_insert_eq.
  - assert (Hs : s' = s).
    { revert r s' Hset Hc.
      induction e as [| t | l msg stk | l err IH stk | l cause IH msg
                      | msg k | msg k cause IH]; simpl;
        intros r s' Hset Hc; try discriminate.
      destruct (SetCode code err s) as [| | [r0 s0]] eqn:E; try discriminate.
      - by inversion Hset.
      - inversion Hset; subst. eauto. }
    by subst s'.
Qed.

(** X12. The number of steps of Cause: the loop of Cause ends after
    exactly one returning Cause() call per causer of the chain, whether it
    ends by leaving the loop or by the panic of the next Cause() call on a
    nil pointer; with fuel for fewer iterations it has not ended, and with
    fuel for that many it ends as Cause does. *)
Theorem Cause_step_count (e : error) :
  (forall (n : nat) (r : error),
      descends n e r -> loop_exit r -> n = depth e)
  /\ (forall (n : nat) (t : ptype),
      descends n e (NilPtr t) -> method_Cause (NilPtr t) = Panics ->
      n = depth e /\ Cause e = None)
  /\ (forall fuel : nat, Cause_loop fuel e = None <-> (fuel < depth e)%nat)
  /\ (forall fuel : nat,
      (depth e <= fuel)%nat -> Cause_loop fuel e = Some (Cause e)).
Proof.
  split.
  { intros n r Hd. induction Hd as [e | n e e' r Hnil Hstep _ IH]; intros Hexit.
    - destruct Hexit as [-> | Hnone]; [done |].
      destruct e as [| [] | | | | |]; simpl in *; done.
    - unfold cause_step in Hstep.
      destruct e as [| [] | | | | |]; simpl in *; try discriminate;
        inversion Hstep; subst; f_equal; auto. }
  split.
  { intros n t Hd. remember (NilPtr t) as r eqn:Hr.
    induction Hd as [e | n e e' r Hnil Hstep _ IH]; intros Hp.
    - subst e. destruct t; simpl in *; try discriminate; done.
    - unfold cause_step in Hstep. specialize (IH Hr Hp).
      destruct e as [| [] | | | | |]; simpl in *; try discriminate;
        inversion Hstep; subst; destruct IH as [-> ->]; done. }
  split.
  { intros fuel. split.
    - intros Hnone. destruct (decide (fuel < depth e)%nat) as [| Hge]; [done |].
      rewrite Cause_loop_enough in Hnone by lia. discriminate.
    - apply Cause_loop_short. }
  intros fuel. apply Cause_loop_enough.
Qed.

End Package.

(** C5. Sentinel default at construction: with the sentinel at the value
    the specification gives it, both base constructors leave the code at
    the sentinel: New(m).Code() and Errorf(format, args...).Code() are
    ErrCodeNotDefined. *)
Theorem sentinel_default_at_construction (arg : Type)
    (Sprintf : string -> list arg -> string) (callers : stack)
    (m format : string) (args : list arg) (s : store) :
  Code (New ErrCodeNotDefined_of_spec callers m s).2
       (New ErrCodeNotDefined_of_spec callers m s).1
  = Returns ErrCodeNotDefined_of_spec
  /\ Code (Errorf arg Sprintf callers format args s).2
          (Errorf arg Sprintf callers format args s).1
     = Returns ErrCodeNotDefined_of_spec.
Proof.
  exact (constructor_codes ErrCodeNotDefined_of_spec arg Sprintf callers m
           format args s).
Qed.

(** ** The laws at concrete chains *)

Local Close Scope Z_scope.

Lemma absence_propagation_witness :
  nil_pointer (WithStack [7%N] (Foreign "EOF" None) empty_store).1 = false
  /\ returns_non_nil (Wrap (-1)%Z [7%N] (Foreign "EOF" None) "read failed" empty_store)
  /\ Wrap (-1)%Z [7%N] (NilPtr TStackError) "read failed" empty_store = None.
Proof.
  assert (H : Foreign "EOF" None <> Nil) by discriminate.
  assert (Hc : Code empty_store (Foreign "EOF" None) <> Panics) by discriminate.
  destruct (absence_propagation (-1)%Z string (fun f _ => f)
              [7%N] "read failed" "%s" [] empty_store)
    as (_ & HS & HW & HP & _).
  split; [exact (HS _ H) |].
  split; [exact (proj1 (HW _ H Hc)) |].
  exact (proj1 (HP (NilPtr TStackError) eq_refl)).
Defined.

(** A non-nil cause for which Wrap returns no result: the nil pointer
    WithStack(nil) returns, passed on as an error. *)
Lemma non_nil_cause_no_result :
  (WithStack [7%N] Nil empty_store).1 <> Nil
  /\ ~ returns_non_nil
         (Wrap (-1)%Z [8%N] (WithStack [7%N] Nil empty_store).1 "m"
            (WithStack [7%N] Nil empty_store).2).
Proof.
  split; [discriminate |].
  intros (w & s' & H & _). discriminate H.
Qed.


Lemma root_cause_traversal_witness :
  Cause (MsgCodeErr 0 "file not found" [1%N])
  = Some (MsgCodeErr 0 "file not found" [1%N])
  /\ Cause (StackError 2
             (CauseMsgCodeError 1 (MsgCodeErr 0 "file not found" [1%N]) "a")
             [7%N])
     = Some (MsgCodeErr 0 "file not found" [1%N])
  /\ Cause_loop 2
       (StackError 2
          (CauseMsgCodeError 1 (MsgCodeErr 0 "file not found" [1%N]) "a") [7%N])
     = Some (Cause
               (StackError 2
                  (CauseMsgCodeError 1 (MsgCodeErr 0 "file not found" [1%N]) "a")
                  [7%N]))
  /\ (exists t : ptype,
        descends (depth (StackError 0 (NilPtr TStackError) [7%N]))
          (StackError 0 (NilPtr TStackError) [7%N]) (NilPtr t)
        /\ method_Cause (NilPtr t) = Panics)
  /\ (exists (w1 w2 : error) (s1 s2 : store),
        Wrap (-1)%Z [7%N] (MsgCodeErr 0 "file not found" [1%N]) "a" (Store ∅ 1)
        = Some (w1, s1)
        /\ Wrap (-1)%Z [8%N] w1 "b" s1 = Some (w2, s2)
        /\ Cause w2 = Cause (MsgCodeErr 0 "file not found" [1%N])).
Proof.
  destruct (root_cause_traversal (-1)%Z) as (_ & H2 & _ & H4 & H5 & H6 & _ & H8).
  split.
  { apply H2; [discriminate | reflexivity]. }
  split.
  { apply (H4 _ _ 2).
    - apply descends_step with (e' := CauseMsgCodeError 1 (MsgCodeErr 0 "file not found" [1%N]) "a");
        [discriminate | reflexivity |].
      apply descends_step with (e' := MsgCodeErr 0 "file not found" [1%N]);
        [discriminate | reflexivity |].
      apply descends_stop.
    - right. reflexivity. }
  split.
  { apply H6. simpl. lia. }
  split.
  { apply H5. reflexivity. }
  apply H8; discriminate.
Defined.

(** A non-nil e for which Cause(Wrap(Wrap(e, "a"), "b")) == Cause(e) does
    not hold: on the nil pointer WithStack(nil) returns, and on a nil
    [*MsgCodeErr], whose root cause is itself, the first Wrap panics. *)
Lemma wrap_twice_loses_root :
  ((WithStack [7%N] Nil empty_store).1 <> Nil
   /\ ~ wrap_twice_keeps_root (-1)%Z [8%N] [9%N]
          (WithStack [7%N] Nil empty_store).1 "a" "b"
          (WithStack [7%N] Nil empty_store).2)
  /\ (NilPtr TMsgCodeErr <> Nil
      /\ Cause (NilPtr TMsgCodeErr) = Some (NilPtr TMsgCodeErr)
      /\ ~ wrap_twice_keeps_root (-1)%Z [8%N] [9%N]
             (NilPtr TMsgCodeErr) "a" "b" empty_store).
Proof.
  split.
  - split; [discriminate |].
    intros (w1 & w2 & r & s1 & s2 & H & _). discriminate H.
  - split; [discriminate |]. split; [reflexivity |].
    intros (w1 & w2 & r & s1 & s2 & H & _). discriminate H.
Qed.

Lemma code_inheritance_witness :
  exists (w : error) (s1 : store),
    Wrap (-1)%Z [7%N] (MsgCodeErr 0 "x" [1%N]) "m" (Store {[ 0 := 404%Z ]} 1)
    = Some (w, s1)
    /\ Code s1 w = Returns 404%Z
    /\ Code s1 (MsgCodeErr 0 "x" [1%N]) = Returns 404%Z
    /\ exists s2 : store,
         SetCode 500%Z w s1 = Returns (w, s2)
         /\ Code s2 w = Returns 500%Z
         /\ Code s2 (MsgCodeErr 0 "x" [1%N]) = Returns 404%Z.
Proof.
  assert (Ha : allocated (Store {[ 0 := 404%Z ]} 1) (MsgCodeErr 0 "x" [1%N])).
  { unfold allocated. simpl. lia. }
  assert (HK : Code (Store {[ 0 := 404%Z ]} 1) (MsgCodeErr 0 "x" [1%N])
               = Returns 404%Z).
  { vm_compute. reflexivity. }
  exact (code_inheritance (-1)%Z [7%N] (MsgCodeErr 0 "x" [1%N]) "m" 404%Z 500%Z
           (Store {[ 0 := 404%Z ]} 1) Ha HK).
Defined.


Lemma Wrap_composite_witness :
  Wrap (-1)%Z [7%N] (Foreign "EOF" None) "read failed" empty_store
  = WithStack_of_WithMessage (-1)%Z [7%N] (Foreign "EOF" None) "read failed"
      empty_store
  /\ (exists (l l' : loc) (s2 : store),
        l <> l'
        /\ Wrap (-1)%Z [7%N] (Foreign "EOF" None) "read failed" empty_store
           = Some (StackError l' (CauseMsgCodeError l (Foreign "EOF" None) "read failed")
                     [7%N], s2)
        /\ Code s2 (CauseMsgCodeError l (Foreign "EOF" None) "read failed")
           = Returns (-1)%Z)
  /\ Wrap (-1)%Z [7%N] (NilPtr TStackError) "read failed" empty_store = None.
Proof.
  assert (He : Foreign "EOF" None <> Nil) by discriminate.
  assert (Hc : Code empty_store (Foreign "EOF" None) <> Panics) by discriminate.
  destruct (Wrap_composite (-1)%Z [7%N] (Foreign "EOF" None) "read failed"
              empty_store) as (H1 & H2 & _).
  destruct (Wrap_composite (-1)%Z [7%N] (NilPtr TStackError) "read failed"
              empty_store) as (_ & _ & H3 & _).
  split; [exact (H1 He) |].
  split.
  { destruct (H2 He Hc) as (l & l' & s1 & s2 & Hne & _ & _ & Hw & Hcode & _).
    exists l, l', s2. exact (conj Hne (conj Hw Hcode)). }
  apply H3; [discriminate | reflexivity].
Defined.

(** A non-nil e for which Wrap builds nothing: the nil pointer
    WithStack(nil) returns, passed on as an error. *)
Lemma nil_pointer_cause_builds_nothing :
  (WithStack [7%N] Nil empty_store).1 <> Nil
  /\ ~ builds_two_levels (-1)%Z [8%N] (WithStack [7%N] Nil empty_store).1 "m"
         (WithStack [7%N] Nil empty_store).2.
Proof.
  split; [discriminate |].
  intros (l & l' & s' & H). discriminate H.
Qed.

Lemma Unwrap_agrees_with_Cause_witness :
  (exists c : error,
      method_Cause
        (StackError 1 (CauseMsgCodeError 0 (Foreign "EOF" None) "read failed") [7%N])
      = Returns c)
  /\ method_Unwrap
       (StackError 1 (CauseMsgCodeError 0 (Foreign "EOF" None) "read failed") [7%N])
     = method_Cause
         (StackError 1 (CauseMsgCodeError 0 (Foreign "EOF" None) "read failed") [7%N]).
Proof.
  destruct (Unwrap_agrees_with_Cause (-1)%Z string (fun f _ => f)) as (_ & _ & _ & H).
  apply (H [7%N] (Foreign "EOF" None) "read failed" "%s" [] empty_store).
  - discriminate.
  - apply list_elem_of_here.
Defined.

(** The order of the messages is not outer-to-inner: for New("inner")
    wrapped with "outer", the extended rendering writes "inner" before
    "outer". *)
Lemma extended_not_outer_to_inner :
  exists (w : error) (s' : store),
    Wrap (-1)%Z [2%N] (New (-1)%Z [1%N] "inner" empty_store).1 "outer"
      (New (-1)%Z [1%N] "inner" empty_store).2
    = Some (w, s')
    /\ ~ renders_outer_to_inner w.
Proof.
  eexists _, _. split; [reflexivity |].
  intros (out & Hout & Hmsgs).
  vm_compute in Hout. inversion Hout; subst out; clear Hout.
  vm_compute in Hmsgs. discriminate Hmsgs.
Qed.

(** What is written for that chain: the cause with its stack, a newline,
    the message of the wrapper, the stack of the wrapper. *)
Example extended_inner_outer :
  extended
    (StackError 2 (CauseMsgCodeError 1 (MsgCodeErr 0 "inner" [1%N]) "outer") [2%N])
  = Some [Message "inner"; FrameLine 1%N;
          Literal (String "010" EmptyString); Message "outer"; FrameLine 2%N].
Proof. reflexivity. Qed.

(** The text of that rendering, with every frame printed as "main.f". *)
Example extended_inner_outer_text :
  text (fun t => t) (fun _ => "main.f")
    [Message "inner"; FrameLine 1%N;
     Literal (String "010" EmptyString); Message "outer"; FrameLine 2%N]
  = "inner" +:+ String "010" "main.f"
    +:+ String "010" "outer" +:+ String "010" "main.f".
Proof. reflexivity. Qed.

(** With the constant at -1, New stores -1 and Errorf stores 0. *)
Example Errorf_code_differs_from_New :
  Code (New (-1)%Z [1%N] "boom" empty_store).2
       (New (-1)%Z [1%N] "boom" empty_store).1 = Returns (-1)%Z
  /\ Code (Errorf string (fun f _ => f) [1%N] "boom" [] empty_store).2
          (Errorf string (fun f _ => f) [1%N] "boom" [] empty_store).1 = Returns 0%Z.
Proof. split; vm_compute; reflexivity. Qed.

(** The end-to-end scenario of the specification: base = New("file not
    found"), mid = WithMessage(base, "open config"), outer =
    WithStack(mid). *)
Example end_to_end :
  let '(base, s1) := New 0%Z [1%N] "file not found" empty_store in
  exists (mid : error) (s2 : store),
    WithMessage 0%Z base "open config" s1 = Some (mid, s2)
    /\ let '(outer, s3) := WithStack [7%N] mid s2 in
       Error outer = Some "open config: file not found"
       /\ Cause outer = Some base
       /\ Code s3 outer = Returns 0%Z
       /\ (exists out, extended outer = Some out /\ FrameLine 7%N ∈ out).
Proof.
  simpl. eexists _, _. split; [reflexivity |]. simpl.
  repeat split; try reflexivity.
  eexists. split; [reflexivity |]. set_solver.
Qed.

(** The nil pointer an operation returns for a nil cause is a non-nil
    error: Cause, Error and Code panic on it, the next Wrap panics, and
    WithStack wraps it in a non-nil node. *)
Example nil_result_passed_on :
  WithStack [7%N] Nil empty_store = (NilPtr TStackError, empty_store)
  /\ nil_pointer (NilPtr TStackError) = true
  /\ NilPtr TStackError <> Nil
  /\ Cause (NilPtr TStackError) = None
  /\ Error (NilPtr TStackError) = None
  /\ Code empty_store (NilPtr TStackError) = Panics
  /\ Wrap 0%Z [8%N] (NilPtr TStackError) "m" empty_store = None
  /\ WithStack [8%N] (NilPtr TStackError) empty_store
     = (StackError 0 (NilPtr TStackError) [8%N], Store ∅ 1).
Proof. repeat split; try reflexivity. discriminate. Qed.

(** ** The further properties at concrete chains *)

Lemma short_form_is_Error_witness :
  text (fun t => t) (fun _ => "main.f")
    <$> Format (CauseMsgCodeError 1 (MsgCodeErr 0 "file not found" [1%N]) "open config")
          false "v"
  = Error (CauseMsgCodeError 1 (MsgCodeErr 0 "file not found" [1%N]) "open config").
Proof.
  apply (short_form_is_Error (fun t => t) (fun _ => "main.f")
           (CauseMsgCodeError 1 (MsgCodeErr 0 "file not found" [1%N]) "open config")
           false "v"%char).
  - reflexivity.
  - right. split; reflexivity.
Defined.

Lemma other_verbs_witness :
  Format (StackError 0 Nil [7%N]) true "d" = Some [].
Proof.
  destruct (other_verbs (fun t => t) (fun _ => "main.f") true)
    as (_ & _ & _ & _ & H).
  apply H; [reflexivity | discriminate | discriminate | discriminate].
Defined.

Lemma wrapper_code_is_a_copy_witness :
  exists (w : error) (s1 : store),
    Wrap (-1)%Z [7%N] (MsgCodeErr 0 "x" [1%N]) "m" (Store {[ 0 := 404%Z ]} 1)
    = Some (w, s1)
    /\ SetCode 500%Z (MsgCodeErr 0 "x" [1%N]) s1
       = Returns (MsgCodeErr 0 "x" [1%N], assign 0 500%Z s1)
    /\ Code (assign 0 500%Z s1) (MsgCodeErr 0 "x" [1%N]) = Returns 500%Z
    /\ Code (assign 0 500%Z s1) w
       = Code (Store {[ 0 := 404%Z ]} 1) (MsgCodeErr 0 "x" [1%N]).
Proof.
  assert (Ha : allocated (Store {[ 0 := 404%Z ]} 1) (MsgCodeErr 0 "x" [1%N])).
  { unfold allocated. simpl. lia. }
  exact (proj1 (wrapper_code_is_a_copy (-1)%Z [7%N] (MsgCodeErr 0 "x" [1%N]) "m"
                  500%Z (Store {[ 0 := 404%Z ]} 1) 0 Ha eq_refl)).
Defined.

Lemma WithStack_shares_code_witness :
  Code (assign 0 500%Z
          (WithStack [7%N] (MsgCodeErr 0 "x" [1%N]) (Store {[ 0 := 404%Z ]} 1)).2)
       (MsgCodeErr 0 "x" [1%N])
  = Returns 500%Z
  /\ forall s' : store,
       Code s' (WithStack [7%N] (MsgCodeErr 0 "x" [1%N]) (Store {[ 0 := 404%Z ]} 1)).1
       = Code s' (MsgCodeErr 0 "x" [1%N]).
Proof.
  destruct (WithStack_shares_code [7%N] (MsgCodeErr 0 "x" [1%N]) 500%Z
              (Store {[ 0 := 404%Z ]} 1) 0 eq_refl)
    as (_ & H2 & H3 & _).
  exact (conj H2 H3).
Defined.

Lemma construction_is_local_witness :
  Forall (fun r : option (error * store) =>
            forall rs : error * store,
              r = Some rs ->
              allocated rs.2 (MsgCodeErr 0 "x" [1%N])
              /\ Code rs.2 (MsgCodeErr 0 "x" [1%N])
                 = Code (Store {[ 0 := 404%Z ]} 1) (MsgCodeErr 0 "x" [1%N])
              /\ allocated rs.2 rs.1
              /\ (nil_pointer rs.1 = false ->
                  ~ allocated (Store {[ 0 := 404%Z ]} 1) rs.1
                  /\ rs.1 <> MsgCodeErr 0 "x" [1%N]))
    [ Some (New (-1)%Z [7%N] "m" (Store {[ 0 := 404%Z ]} 1));
      Some (Errorf string (fun f _ => f) [7%N] "%s" [] (Store {[ 0 := 404%Z ]} 1));
      Some (WithStack [7%N] (MsgCodeErr 0 "x" [1%N]) (Store {[ 0 := 404%Z ]} 1));
      WithMessage (-1)%Z (MsgCodeErr 0 "x" [1%N]) "m" (Store {[ 0 := 404%Z ]} 1);
      WithMessagef (-1)%Z string (fun f _ => f) (MsgCodeErr 0 "x" [1%N]) "%s" []
        (Store {[ 0 := 404%Z ]} 1);
      Wrap (-1)%Z [7%N] (MsgCodeErr 0 "x" [1%N]) "m" (Store {[ 0 := 404%Z ]} 1);
      Wrapf (-1)%Z string (fun f _ => f) [7%N] (MsgCodeErr 0 "x" [1%N]) "%s" []
        (Store {[ 0 := 404%Z ]} 1) ]
  /\ is_Some (Wrap (-1)%Z [7%N] (MsgCodeErr 0 "x" [1%N]) "m"
                (Store {[ 0 := 404%Z ]} 1)).
Proof.
  assert (Ha : allocated (Store {[ 0 := 404%Z ]} 1) (MsgCodeErr 0 "x" [1%N])).
  { unfold allocated. simpl. lia. }
  assert (Hc : Code (Store {[ 0 := 404%Z ]} 1) (MsgCodeErr 0 "x" [1%N]) <> Panics)
    by discriminate.
  destruct (construction_is_local (-1)%Z string (fun f _ => f) [7%N]
              (MsgCodeErr 0 "x" [1%N]) (MsgCodeErr 0 "x" [1%N]) "m" "%s" []
              (Store {[ 0 := 404%Z ]} 1) Ha Ha) as [H1 H2].
  split; [exact H1 |].
  destruct (H2 Hc) as (_ & _ & H3 & _). exact H3.
Defined.


Lemma code_without_Code_method_witness :
  Code (WithStack [7%N] (Foreign "EOF" None) empty_store).2
       (WithStack [7%N] (Foreign "EOF" None) empty_store).1 = Returns 0%Z
  /\ exists (w : error) (s1 : store),
       Wrap (-1)%Z [7%N] (Foreign "EOF" None) "m" empty_store = Some (w, s1)
       /\ Code s1 w = Returns (-1)%Z.
Proof.
  assert (He : Foreign "EOF" None <> Nil) by discriminate.
  destruct (code_without_Code_method (-1)%Z [7%N] [8%N] (Foreign "EOF" None)
              "m" empty_store He eq_refl)
    as (H1 & _ & H3 & _).
  exact (conj H1 H3).
Defined.

Lemma repeated_Wrap_witness :
  (exists (w : error) (s' : store),
      Wrap_each (-1)%Z [([7%N], "a"); ([8%N], "b")]
        (MsgCodeErr 0 "x" [1%N]) (Store {[ 0 := 404%Z ]} 1)
      = Some (w, s')
      /\ Cause w = Cause (MsgCodeErr 0 "x" [1%N])
      /\ messages w
         = rev [("a" : string); ("b" : string)] ++ messages (MsgCodeErr 0 "x" [1%N])
      /\ exists k : Z,
           errCode_of (-1)%Z (Store {[ 0 := 404%Z ]} 1) (MsgCodeErr 0 "x" [1%N])
           = Some k
           /\ Code s' w = Returns k)
  /\ Wrap_each (-1)%Z [([7%N], "a"); ([8%N], "b")] (NilPtr TStackError) empty_store
     = None.
Proof.
  assert (He : MsgCodeErr 0 "x" [1%N] <> Nil) by discriminate.
  assert (Hc : Code (Store {[ 0 := 404%Z ]} 1) (MsgCodeErr 0 "x" [1%N]) <> Panics)
    by discriminate.
  assert (Hn : NilPtr TStackError <> Nil) by discriminate.
  assert (Hl : [([7%N], "a" : string); ([8%N], "b" : string)] <> []) by discriminate.
  split.
  - destruct (proj1 (repeated_Wrap (-1)%Z [([7%N], "a"); ([8%N], "b")]
                       (MsgCodeErr 0 "x" [1%N]) (Store {[ 0 := 404%Z ]} 1) He) Hc)
      as (w & s' & HE & _ & _ & H3 & H4 & _ & _ & H7).
    exists w, s'. split; [exact HE |]. split; [exact H3 |]. split; [exact H4 |].
    exact (H7 Hl).
  - exact (proj2 (repeated_Wrap (-1)%Z [([7%N], "a"); ([8%N], "b")]
                    (NilPtr TStackError) empty_store Hn) eq_refl Hl).
Defined.

Lemma Error_ends_with_root_cause_witness :
  Error (StackError 2
           (CauseMsgCodeError 1 (MsgCodeErr 0 "file not found" [1%N]) "open config")
           [7%N])
  = Some ("open config" +:+ ": " +:+ "file not found").
Proof.
  destruct (Error_ends_with_root_cause
              (StackError 2
                 (CauseMsgCodeError 1 (MsgCodeErr 0 "file not found" [1%N]) "open config")
                 [7%N]) eq_refl) as [_ H].
  apply (H (MsgCodeErr 0 "file not found" [1%N]) "file not found"); reflexivity.
Defined.

Lemma Cause_is_stable_witness :
  Cause (MsgCodeErr 0 "x" [1%N]) = Some (MsgCodeErr 0 "x" [1%N])
  /\ Cause (WithStack [7%N] (MsgCodeErr 0 "x" [1%N]) (Store {[ 0 := 404%Z ]} 1)).1
     = Cause (MsgCodeErr 0 "x" [1%N])
  /\ Cause (StackError 2 (CauseMsgCodeError 1 (MsgCodeErr 0 "x" [1%N]) "m") [7%N])
     = Cause (MsgCodeErr 0 "x" [1%N])
  /\ Cause (NilPtr TStackError) = None.
Proof.
  assert (He : MsgCodeErr 0 "x" [1%N] <> Nil) by discriminate.
  destruct (Cause_is_stable (-1)%Z string (fun f _ => f) [7%N]
              (MsgCodeErr 0 "x" [1%N]) "m" "%s" [] (Store {[ 0 := 404%Z ]} 1))
    as (H1 & H2 & H3 & _).
  destruct (Cause_is_stable (-1)%Z string (fun f _ => f) [7%N]
              (MsgCodeErr 0 "x" [1%N]) "m" "%s" [] empty_store)
    as (_ & _ & _ & _ & _ & H6).
  split; [exact (proj1 (H1 _ eq_refl)) |].
  split; [exact (H2 He) |].
  split.
  { apply (H3 _ (Store {[ 0 := 404%Z; 1 := 404%Z ]} 3) He).
    right. right. left. vm_compute. reflexivity. }
  apply (H6 _ empty_store). right. right. left. reflexivity.
Defined.

Lemma SetCode_single_assignment_witness :
  Code (assign 0 5%Z (Store {[ 0 := 3%Z ]} 2))
       (StackError 1 (MsgCodeErr 0 "x" [1%N]) [7%N]) = Returns 5%Z
  /\ forall l : loc,
       code_cell (StackError 1 (MsgCodeErr 0 "x" [1%N]) [7%N]) <> Some l ->
       load (assign 0 5%Z (Store {[ 0 := 3%Z ]} 2)) l
       = load (Store {[ 0 := 3%Z ]} 2) l.
Proof.
  destruct (SetCode_single_assignment 5%Z 6%Z
              (StackError 1 (MsgCodeErr 0 "x" [1%N]) [7%N])
              (StackError 1 (MsgCodeErr 0 "x" [1%N]) [7%N])
              (Store {[ 0 := 3%Z ]} 2)
              (assign 0 5%Z (Store {[ 0 := 3%Z ]} 2)) eq_refl)
    as (_ & _ & H3 & H4).
  simpl in H4. destruct H4 as (_ & H5 & _).
  exact (conj H5 H3).
Defined.

Lemma Cause_step_count_witness :
  2 = depth (StackError 2 (CauseMsgCodeError 1 (MsgCodeErr 0 "x" [1%N]) "a") [7%N])
  /\ (1 = depth (StackError 0 (NilPtr TStackError) [7%N])
      /\ Cause (StackError 0 (NilPtr TStackError) [7%N]) = None).
Proof.
  destruct (Cause_step_count
              (StackError 2 (CauseMsgCodeError 1 (MsgCodeErr 0 "x" [1%N]) "a") [7%N]))
    as [H _].
  destruct (Cause_step_count (StackError 0 (NilPtr TStackError) [7%N]))
    as (_ & G & _).
  split.
  - apply (H 2 (MsgCodeErr 0 "x" [1%N])).
    + apply descends_step with (e' := CauseMsgCodeError 1 (MsgCodeErr 0 "x" [1%N]) "a");
        [discriminate | reflexivity |].
      apply descends_step with (e' := MsgCodeErr 0 "x" [1%N]);
        [discriminate | reflexivity |].
      apply descends_stop.
    + right. reflexivity.
  - apply (G 1 TStackError); [| reflexivity].
    apply descends_step with (e' := NilPtr TStackError);
      [discriminate | reflexivity |].
    apply descends_stop.
Defined.
